(** * VendorSelector-AI: supplier validation, scoring and ranking

    A shallow embedding of [VendorSelector-AI.py].  Python floats are IEEE-754
    binary64 numbers, modelled by Rocq's primitive floats, so that every
    arithmetic step of the program is the machine's own.  Records are Python
    dicts with string keys, modelled by [gmap string pyval].  A raised
    exception is a value of [result]; the mutation of [self.suppliers]
    is explicit state passing, and the state survives a raise as it does in
    Python. *)

From Stdlib Require Import ZArith QArith Qpower Lia Lqa Floats Ascii String List.
From Stdlib Require Import Sorting.Sorted Sorting.Permutation.
From stdpp Require Import base option strings list gmap pretty sorting.

Set Warnings "-inexact-float".
Local Open Scope Z_scope.

(** ** Python values and exceptions *)

(** The values a decoded CSV row or JSON object can hold.  [PObj] stands for
    a list or a dict, of which only the text [str()] gives is kept. *)
Inductive pyval :=
| PNone
| PBool (b : bool)
| PInt (n : Z)
| PFloat (x : float)
| PStr (s : string)
| PObj (shown : string).

(** [ValueError msg] is what the program's own [raise ValueError(msg)]
    raises.  The three others come out of the builtin [float()]: a
    [ValueError] of its own for a string that is no number, a [TypeError]
    for [None] or a container, an [OverflowError] for an int too large.
    [KeyError] is what [data[k]] raises on an absent key.  [DecodeError] is
    what [json.loads] raises on malformed text, a [ValueError] subclass, and
    [OtherError] is an exception of any other class, such as the
    [AttributeError] of [.get] on JSON text that is not an object. *)
Inductive exn :=
| ValueError (msg : string)
| FloatValueError (s : string)
| FloatTypeError (v : pyval)
| FloatOverflowError (n : Z)
| KeyError (k : string)
| DecodeError (msg : string)
| OtherError (class : string).

(** [except ValueError] catches these. *)
Definition is_ValueError (e : exn) : bool :=
  match e with
  | ValueError _ | FloatValueError _ | DecodeError _ => true
  | _ => false
  end.

Inductive result (A : Type) :=
| Ok (a : A)
| Raise (e : exn).
Arguments Ok {A} a.
Arguments Raise {A} e.

#[global] Instance result_ret : MRet result := λ A a, Ok a.
#[global] Instance result_bind : MBind result := λ A B f r,
  match r with
  | Ok a => f a
  | Raise e => Raise e
  end.

(** ** Floats *)

Definition f0 : float := 0%float.
Definition f1 : float := 1%float.
Definition f100 : float := 100%float.

Definition is_nan (x : float) : bool := negb (PrimFloat.eqb x x).

(** The exact value of an int as the nearest binary64 number, ties to even:
    what [float(n)] computes. *)
Definition float_of_Z (n : Z) : float :=
  SF2Prim (binary_normalize prec emax n 0 false).

(** Round half to even of the quotient [num / den], for [0 < den]. *)
Definition half_even (num den : Z) : Z :=
  let q := num / den in
  let r := num mod den in
  match 2 * r ?= den with
  | Lt => q
  | Gt => q + 1
  | Eq => if Z.even q then q else q + 1
  end.

Definition SFofZ (s : bool) (n : Z) : spec_float :=
  match n with
  | Z0 => S754_zero s
  | Zpos p => S754_finite s p 0
  | Zneg _ => S754_nan
  end.

(** The binary64 number nearest to [n / 100], with the sign [s]. *)
Definition hundredths (s : bool) (n : Z) : float :=
  SF2Prim (SFdiv prec emax (SFofZ s n) (S754_finite false 100 0)).

(** [round(x, 2)] on a float.  CPython rounds the exact binary value of [x]
    to two decimals, ties to even, and returns the float nearest to that
    decimal.  A float with a non-negative exponent is an integer and comes
    back unchanged, as do the infinities and NaN. *)
Definition py_round2 (x : float) : float :=
  match Prim2SF x with
  | S754_finite s m e =>
      if 0 <=? e then x
      else hundredths s (half_even (Z.pos m * 100) (2 ^ (- e)))
  | _ => x
  end.

(** [x == n] for a float and an int: Python compares the exact values. *)
Definition float_eq_Z (x : float) (n : Z) : bool :=
  match Prim2SF x with
  | S754_zero _ => n =? 0
  | S754_finite s m e =>
      let v := if s then Z.neg m else Z.pos m in
      if 0 <=? e then v * 2 ^ e =? n else v =? n * 2 ^ (- e)
  | _ => false
  end.

(** [x == v] where [x] is a float. *)
Definition py_float_eq (x : float) (v : pyval) : bool :=
  match v with
  | PFloat y => PrimFloat.eqb x y
  | PInt n => float_eq_Z x n
  | PBool b => float_eq_Z x (if b then 1 else 0)
  | _ => false
  end.

(** ** Sorting

    [sorted(l, key=key)] is stable and compares keys with [<] only.
    With [reverse=True] CPython reverses the list, sorts it, and reverses the
    result, which keeps elements with equal keys in their original order. *)
Section Sorted.
Context {A K : Type} (key : A → K) (ltb : K → K → bool).

Fixpoint insert_sorted (x : A) (l : list A) : list A :=
  match l with
  | [] => [x]
  | y :: l' =>
      if ltb (key y) (key x) then y :: insert_sorted x l'
      else x :: y :: l'
  end.

Fixpoint py_sorted (l : list A) : list A :=
  match l with
  | [] => []
  | x :: l' => insert_sorted x (py_sorted l')
  end.

Definition py_sorted_reverse (l : list A) : list A :=
  rev (py_sorted (rev l)).
End Sorted.

(** ** The data model *)

Record Supplier := {
  supplier_id : pyval;
  price_score : float;
  delivery_reliability_score : float;
  quality_rating_score : float;
  overall_score : float
}.

Definition set_overall_score (s : Supplier) (v : float) : Supplier :=
  {| supplier_id := supplier_id s;
     price_score := price_score s;
     delivery_reliability_score := delivery_reliability_score s;
     quality_rating_score := quality_rating_score s;
     overall_score := v |}.

(** [self.validation_report]: dicts in insertion order. *)
Record ValidationReport := {
  structure : list (string * Z);
  required_fields : list (string * string);
  data_types : list (string * string);
  summary : string
}.

Record VendorSelectorAI := {
  suppliers : list Supplier;
  validation_report : ValidationReport
}.

(** [VendorSelectorAI()] *)
Definition init : VendorSelectorAI :=
  {| suppliers := [];
     validation_report :=
       {| structure := []; required_fields := []; data_types := [];
          summary := "" |} |}.

Definition nl : string := String "010"%char EmptyString.

(** [sep.join(l)] *)
Definition join (sep : string) (l : list string) : string :=
  String.concat sep l.

(** [text.isascii()] *)
Fixpoint isascii (text : string) : bool :=
  match text with
  | EmptyString => true
  | String (Ascii _ _ _ _ _ _ _ b7) rest => negb b7 && isascii rest
  end.

(** [d[k]] on an insertion-ordered dict that holds the key *)
Fixpoint assoc {V} (d : list (string * V)) (k : string) (dflt : V) : V :=
  match d with
  | [] => dflt
  | (k', v) :: d' => if String.eqb k k' then v else assoc d' k dflt
  end.

(** ** The Python runtime the program calls into

    [float_of_str s] is [float(s)] on a string, [None] where Python raises
    its [ValueError]; [float_repr x] is [str(x)] on a float;
    [csv_DictReader text] is the rows [csv.DictReader(StringIO(text))]
    yields, each a dict from the column names to the cells ([None] for a
    cell the row lacks); [json_loads_suppliers text] is
    [json.loads(text).get("suppliers", [])], a list of dicts, or what these
    calls raise. *)
Class PyBuiltins := {
  float_of_str : string → option float;
  float_repr : float → string;
  csv_DictReader : string → list (gmap string pyval);
  json_loads_suppliers : string → result (list (gmap string pyval))
}.

(** [str(v)], as an f-string formats a value *)
Definition py_str `{PyBuiltins} (v : pyval) : string :=
  match v with
  | PNone => "None"
  | PBool b => if b then "True" else "False"
  | PInt n => pretty n
  | PFloat x => float_repr x
  | PStr s => s
  | PObj shown => shown
  end.

(** [float(v)] *)
Definition py_float `{PyBuiltins} (v : pyval) : result float :=
  match v with
  | PFloat x => Ok x
  | PInt n =>
      match Prim2SF (float_of_Z n) with
      | S754_infinity _ => Raise (FloatOverflowError n)
      | _ => Ok (float_of_Z n)
      end
  | PBool b => Ok (if b then f1 else f0)
  | PStr s =>
      match float_of_str s with
      | Some x => Ok x
      | None => Raise (FloatValueError s)
      end
  | PNone | PObj _ => Raise (FloatTypeError v)
  end.

(** [data[k]] *)
Definition getitem (data : gmap string pyval) (k : string) : result pyval :=
  match data !! k with
  | Some v => Ok v
  | None => Raise (KeyError k)
  end.

(** ** The error messages of the program *)

Definition UnsupportedLanguageError : exn :=
  ValueError "ERROR: Unsupported language detected. Please use ENGLISH.".

Definition FormatError : exn :=
  ValueError "ERROR: Invalid data format. Please provide CSV or JSON.".

Definition InvalidTypeError (supplier_id field_name : string) : exn :=
  ValueError ("ERROR: Invalid data type in " +:+ supplier_id +:+ ": "
              +:+ field_name +:+ ". Please provide numeric values.").

Definition InvalidRangeError (supplier_id field_name : string) : exn :=
  ValueError ("ERROR: Invalid value in " +:+ supplier_id +:+ ": "
              +:+ field_name +:+ ". Please provide scores between 0 and 100.").

Definition MissingFieldError (missing_fields : list string) : exn :=
  ValueError ("ERROR: Missing required field(s): " +:+ join ", " missing_fields).

(** ** [VendorSelectorAI] *)

Definition validate_language (text : string) : result bool :=
  if negb (isascii text) then Raise UnsupportedLanguageError else Ok true.

Definition validate_format (data format_type : string) : result bool :=
  if negb (existsb (String.eqb format_type) ["csv"; "json"])
  then Raise FormatError else Ok true.

(** [0 <= score <= 100] on an int, a bool or a float *)
Definition in_range (score : pyval) : bool :=
  match score with
  | PFloat x => PrimFloat.leb f0 x && PrimFloat.leb x f100
  | PInt n => (0 <=? n) && (n <=? 100)
  | PBool _ => true
  | _ => false
  end.

(** [isinstance(score, (int, float))]; [bool] is a subclass of [int]. *)
Definition is_number (score : pyval) : bool :=
  match score with
  | PFloat _ | PInt _ | PBool _ => true
  | _ => false
  end.

Definition validate_score `{PyBuiltins}
    (score : pyval) (field_name : string) (supplier_id : pyval) : result bool :=
  if negb (is_number score) then
    Raise (InvalidTypeError (py_str supplier_id) field_name)
  else if negb (in_range score) then
    Raise (InvalidRangeError (py_str supplier_id) field_name)
  else Ok true.

Definition calculate_overall_score (supplier : Supplier) : float :=
  let price_component := (price_score supplier / 100 * 0.4)%float in
  let delivery_component := (delivery_reliability_score supplier / 100 * 0.3)%float in
  let quality_component := (quality_rating_score supplier / 100 * 0.3)%float in
  py_round2 (price_component + delivery_component + quality_component)%float.

Definition required_fields_list : list string :=
  ["supplier_id"; "price_score"; "delivery_reliability_score";
   "quality_rating_score"].

Definition missing_fields_of (data : gmap string pyval) : list string :=
  List.filter (λ field, negb (bool_decide (is_Some (data !! field))))
    required_fields_list.

Definition _process_supplier_data `{PyBuiltins}
    (data : gmap string pyval) (self : VendorSelectorAI)
    : result () * VendorSelectorAI :=
  let missing_fields := missing_fields_of data in
  if negb (bool_decide (missing_fields = [])) then
    (Raise (MissingFieldError missing_fields), self)
  else
    let validated : result Supplier :=
      sid ← getitem data "supplier_id";
      price ← getitem data "price_score" ≫= py_float;
      delivery ← getitem data "delivery_reliability_score" ≫= py_float;
      quality ← getitem data "quality_rating_score" ≫= py_float;
      let supplier :=
        {| supplier_id := sid; price_score := price;
           delivery_reliability_score := delivery;
           quality_rating_score := quality; overall_score := f0 |} in
      _ ← validate_score (PFloat (price_score supplier)) "price_score"
            (supplier_id supplier);
      _ ← validate_score (PFloat (delivery_reliability_score supplier))
            "delivery_reliability_score" (supplier_id supplier);
      _ ← validate_score (PFloat (quality_rating_score supplier))
            "quality_rating_score" (supplier_id supplier);
      mret (set_overall_score supplier (calculate_overall_score supplier)) in
    match validated with
    | Ok supplier =>
        (Ok (), {| suppliers := suppliers self ++ [supplier];
                   validation_report := validation_report self |})
    | Raise e => (Raise e, self)
    end.

(** [for row in rows: self._process_supplier_data(row)] *)
Fixpoint process_rows `{PyBuiltins}
    (rows : list (gmap string pyval)) (self : VendorSelectorAI)
    : result () * VendorSelectorAI :=
  match rows with
  | [] => (Ok (), self)
  | row :: rows' =>
      match _process_supplier_data row self with
      | (Ok _, self') => process_rows rows' self'
      | (Raise e, self') => (Raise e, self')
      end
  end.

Definition parse_csv_data `{PyBuiltins}
    (csv_data : string) (self : VendorSelectorAI) :=
  process_rows (csv_DictReader csv_data) self.

Definition parse_json_data `{PyBuiltins}
    (json_data : string) (self : VendorSelectorAI) :=
  match json_loads_suppliers json_data with
  | Ok rows => process_rows rows self
  | Raise e => (Raise e, self)
  end.

Definition parse_input_data `{PyBuiltins}
    (data format_type : string) (self : VendorSelectorAI)
    : result () * VendorSelectorAI :=
  match validate_language data with
  | Raise e => (Raise e, self)
  | Ok _ =>
      match validate_format data format_type with
      | Raise e => (Raise e, self)
      | Ok _ =>
          if String.eqb format_type "csv" then parse_csv_data data self
          else parse_json_data data self
      end
  end.

Definition generate_validation_report (self : VendorSelectorAI)
    : string * VendorSelectorAI :=
  let vr :=
    {| structure :=
         [("suppliers", Z.of_nat (length (suppliers self)));
          ("fields_per_record", 4)];
       required_fields :=
         [("supplier_id", "Present"); ("price_score", "Present");
          ("delivery_reliability_score", "Present");
          ("quality_rating_score", "Present")];
       data_types :=
         [("Price Score", "Valid"); ("Delivery Reliability Score", "Valid");
          ("Quality Rating Score", "Valid")];
       summary := summary (validation_report self) |} in
  let report :=
    ["# Data Validation Report";
     "## 1. Data Structure Check:";
     "- Number of suppliers: " +:+ pretty (assoc (structure vr) "suppliers" 0);
     "- Number of fields per record: "
       +:+ pretty (assoc (structure vr) "fields_per_record" 0);
     "";
     "## 2. Required Fields Check:"]
    ++ map (λ '(field, status), "- " +:+ field +:+ ": " +:+ status)
         (required_fields vr)
    ++ [""; "## 3. Data Type Validation:"]
    ++ map (λ '(field, status),
              "- " +:+ field +:+ " (positive number): " +:+ status)
         (data_types vr)
    ++ [""; "## Validation Summary:";
        "Data validation is successful! Proceeding with analysis..."] in
  (join nl report, {| suppliers := suppliers self; validation_report := vr |}).

Definition generate_supplier_analysis `{PyBuiltins}
    (supplier : Supplier) (rank : nat) (is_top : bool) : string :=
  let price_component := py_round2 (price_score supplier / 100 * 0.4)%float in
  let delivery_component :=
    py_round2 (delivery_reliability_score supplier / 100 * 0.3)%float in
  let quality_component :=
    py_round2 (quality_rating_score supplier / 100 * 0.3)%float in
  let analysis :=
    ["## Supplier " +:+ py_str (supplier_id supplier);
     "### Input Data:";
     "- Price Score: " +:+ float_repr (price_score supplier);
     "- Delivery Reliability Score: "
       +:+ float_repr (delivery_reliability_score supplier);
     "- Quality Rating Score: " +:+ float_repr (quality_rating_score supplier);
     "";
     "### Detailed Calculations:";
     "";
     "1. Sum the scores:";
     "   - Price Score: " +:+ float_repr (price_score supplier)
       +:+ " × 0.4 = " +:+ float_repr price_component;
     "   - Delivery Reliability Score: "
       +:+ float_repr (delivery_reliability_score supplier)
       +:+ " × 0.3 = " +:+ float_repr delivery_component;
     "   - Quality Rating Score: "
       +:+ float_repr (quality_rating_score supplier)
       +:+ " × 0.3 = " +:+ float_repr quality_component;
     "2. Compute Overall Score:";
     "   $\text{Overall Score} = " +:+ float_repr price_component +:+ " + "
       +:+ float_repr delivery_component +:+ " + "
       +:+ float_repr quality_component +:+ " = "
       +:+ float_repr (overall_score supplier) +:+ "$";
     "";
     "### Ranking Status:";
     "- " +:+ (if is_top then "Selected as Top Vendor"
               else "Rank: " +:+ pretty rank)] in
  join nl analysis.

(** [sorted(self.suppliers, key=lambda x: x.overall_score, reverse=True)] *)
Definition ranked_suppliers (l : list Supplier) : list Supplier :=
  py_sorted_reverse overall_score PrimFloat.ltb l.

(** [ranked_suppliers[0].overall_score if ranked_suppliers else 0] *)
Definition top_score_of (ranked : list Supplier) : pyval :=
  match ranked with
  | s :: _ => PFloat (overall_score s)
  | [] => PInt 0
  end.

(** The suppliers the last loop of [generate_final_report] lists. *)
Definition top_suppliers (l : list Supplier) : list Supplier :=
  let ranked := ranked_suppliers l in
  List.filter (λ supplier, py_float_eq (overall_score supplier) (top_score_of ranked))
    ranked.

(** The lines of the final ranking: its heading and one line a top supplier. *)
Definition final_ranking `{PyBuiltins} (l : list Supplier) : list string :=
  ["";
   "# Final Ranking";
   "Top supplier(s) with overall score of "
     +:+ py_str (top_score_of (ranked_suppliers l)) +:+ ":"]
  ++ map (λ supplier, "- Supplier " +:+ py_str (supplier_id supplier))
       (top_suppliers l).

(** [enumerate(ranked, start)] consumed by the loop that appends one
    analysis a supplier *)
Fixpoint analyses `{PyBuiltins}
    (ranked : list Supplier) (i : nat) (top_score : pyval) : list string :=
  match ranked with
  | [] => []
  | supplier :: rest =>
      let is_top := py_float_eq (overall_score supplier) top_score in
      generate_supplier_analysis supplier i is_top
        :: analyses rest (S i) top_score
  end.

Definition generate_final_report `{PyBuiltins} (self : VendorSelectorAI)
    : string * VendorSelectorAI :=
  let ranked := ranked_suppliers (suppliers self) in
  let top_score := top_score_of ranked in
  let '(validation, self') := generate_validation_report self in
  let report_sections :=
    [validation;
     "";
     "# Formulas Used:";
     "1. Overall Supplier Score Formula:";
     "$$\text{Overall Score} = \left(\frac{\text{price_score}}{100} \times 0.4 \right) + \left(\frac{\text{delivery_reliability_score}}{100} \times 0.3 \right) + \left(\frac{\text{quality_rating_score}}{100} \times 0.3 \right)$$";
     "";
     "# Supplier Evaluation Summary";
     "Total Suppliers Evaluated: " +:+ pretty (length (suppliers self'));
     "";
     "# Detailed Analysis for Each Supplier"]
    ++ analyses ranked 1 top_score
    ++ final_ranking (suppliers self)
    ++ ["";
        "# Feedback Request";
        "Would you like detailed calculations for any specific supplier? Rate this analysis (1-5)."] in
  (join nl report_sections, self').

(** What a session shows: the report, the message of a caught [ValueError],
    or an exception nothing catches. *)
Inductive outcome :=
| Report (text : string)
| ErrorMessage (e : exn)
| Uncaught (e : exn).

(** The [try] block of [main], after the greeting, on the given input. *)
Definition main `{PyBuiltins} (data format_type : string) : outcome :=
  match parse_input_data data format_type init with
  | (Ok _, selector) => Report (fst (generate_final_report selector))
  | (Raise e, _) => if is_ValueError e then ErrorMessage e else Uncaught e
  end.

(** ** A runtime to run the program on examples

    It reads ASCII decimal literals ([-12], [85.5], [ 82  ]), writes a float
    by its exact decimal expansion, reads CSV text without quoting, and
    takes no JSON text for well formed. *)
Module Example.

Fixpoint split_on (c : ascii) (s : string) : list string :=
  match s with
  | EmptyString => [EmptyString]
  | String a rest =>
      if Ascii.eqb a c then EmptyString :: split_on c rest
      else match split_on c rest with
           | w :: ws => String a w :: ws
           | [] => [String a EmptyString]
           end
  end.

Definition is_space (a : ascii) : bool :=
  existsb (Ascii.eqb a) [" "; "009"; "010"; "011"; "012"; "013"]%char.

Fixpoint lstrip (s : string) : string :=
  match s with
  | String a rest => if is_space a then lstrip rest else s
  | EmptyString => s
  end.

Definition strip (s : string) : string :=
  String.rev (lstrip (String.rev (lstrip s))).

Definition digit_of (a : ascii) : option Z :=
  let n := Z.of_nat (nat_of_ascii a) in
  if (48 <=? n) && (n <=? 57) then Some (n - 48) else None.

Fixpoint digits (acc : Z) (s : string) : option Z :=
  match s with
  | EmptyString => Some acc
  | String a rest =>
      match digit_of a with
      | Some d => digits (10 * acc + d) rest
      | None => None
      end
  end.

Definition unsigned_decimal (sign : bool) (s : string) : option float :=
  match split_on "." s with
  | [i] =>
      if String.eqb i "" then None
      else n ← digits 0 i; Some (SF2Prim (binary_normalize prec emax
                                            (if sign then - n else n) 0 sign))
  | [i; f] =>
      if String.eqb (i +:+ f) "" then None
      else
        n ← digits 0 (i +:+ f);
        Some (SF2Prim (SFdiv prec emax (SFofZ sign n)
                         (S754_finite false
                            (Z.to_pos (10 ^ Z.of_nat (String.length f))) 0)))
  | _ => None
  end.

Definition decimal_float (s : string) : option float :=
  match strip s with
  | String "-" rest => unsigned_decimal true rest
  | String "+" rest => unsigned_decimal false rest
  | t => unsigned_decimal false t
  end.

Fixpoint pad_left (n : nat) (s : string) : string :=
  match n with
  | O => s
  | S n' => if Nat.ltb (String.length s) n then pad_left n' ("0" +:+ s) else s
  end.

Fixpoint drop_zeros (s : string) : string :=
  match s with
  | String "0" rest => drop_zeros rest
  | _ => s
  end.

Definition exact_decimal (x : float) : string :=
  match Prim2SF x with
  | S754_zero s => if s then "-0.0" else "0.0"
  | S754_infinity s => if s then "-inf" else "inf"
  | S754_nan => "nan"
  | S754_finite s m e =>
      (if s then "-" else "") +:+
      (if 0 <=? e then pretty (Z.pos m * 2 ^ e) +:+ ".0"
       else
         let k := - e in
         let frac := pad_left (Z.to_nat k) (pretty ((Z.pos m mod 2 ^ k) * 5 ^ k)) in
         let frac := String.rev (drop_zeros (String.rev frac)) in
         pretty (Z.pos m / 2 ^ k) +:+ "."
           +:+ (if String.eqb frac "" then "0" else frac))
  end.

Fixpoint zip_row (header cells : list string) : gmap string pyval :=
  match header, cells with
  | [], _ => ∅
  | h :: header', [] => <[h := PNone]> (zip_row header' [])
  | h :: header', c :: cells' => <[h := PStr c]> (zip_row header' cells')
  end.

Definition simple_csv (text : string) : list (gmap string pyval) :=
  match List.filter (λ line, negb (String.eqb line "")) (split_on "010" text) with
  | [] => []
  | header :: lines =>
      map (λ line, zip_row (split_on "," header) (split_on "," line)) lines
  end.

#[export] Instance builtins : PyBuiltins := {|
  float_of_str := decimal_float;
  float_repr := exact_decimal;
  csv_DictReader := simple_csv;
  json_loads_suppliers := λ _, Raise (DecodeError "Expecting value")
|}.

Definition row (sid p d q : string) : gmap string pyval :=
  {[ "supplier_id" := PStr sid; "price_score" := PStr p;
     "delivery_reliability_score" := PStr d;
     "quality_rating_score" := PStr q ]}.

(** A record with two of the four keys. *)
Definition partial_row : gmap string pyval :=
  {[ "supplier_id" := PStr "s1"; "price_score" := PInt 78 ]}.

(** The input of the program's own [main]. *)
Definition csv_data : string :=
  "supplier_id,price_score,delivery_reliability_score,quality_rating_score
s1,78,85,80
s2,82,80,79
s3,91,88,86
s4,67,90,75
s5,74,83,84
s6,88,92,89
s7,70,76,77
s8,85,89,90
s9,79,83,82
s10,90,89,91
s11,86,87,85
s12,75,81,80
s13,92,90,91
s14,73,78,76
s15,80,85,82    ".

(** A supplier as [_process_supplier_data] builds it from three scores. *)
Definition supplier (sid : string) (p d q : float) : Supplier :=
  let s := {| supplier_id := PStr sid; price_score := p;
              delivery_reliability_score := d; quality_rating_score := q;
              overall_score := f0 |} in
  set_overall_score s (calculate_overall_score s).

(** Two suppliers at 0.85 around one at 0.8. *)
Definition tied_batch : list Supplier :=
  [supplier "a" 85 85 85; supplier "b" 80 80 80; supplier "c" 85 85 85].

(** The second row has a price score out of range. *)
Definition csv_out_of_range : string :=
  "supplier_id,price_score,delivery_reliability_score,quality_rating_score
s1,78,85,80
s2,182,80,79
s3,91,88,86".

(** No column [quality_rating_score]. *)
Definition csv_no_quality : string :=
  "supplier_id,price_score,delivery_reliability_score
s1,78,85
s2,82,80".

End Example.

(** ** Notions the statements use *)

(** The order of the comparisons [<], [<=] and [==] on floats that are not
    NaN is the lexicographic order of these triples. *)
Definition SFrank (x : spec_float) : Z * Z * Z :=
  match x with
  | S754_zero _ => (0, 0, 0)
  | S754_infinity s => (if s then -2 else 2, 0, 0)
  | S754_nan => (3, 0, 0)
  | S754_finite s m e => if s then (-1, - e, Z.neg m) else (1, e, Z.pos m)
  end.

Definition frank (x : float) : Z * Z * Z := SFrank (Prim2SF x).

Definition lex_le (a b : Z * Z * Z) : Prop :=
  let '(a1, a2, a3) := a in
  let '(b1, b2, b3) := b in
  a1 < b1 ∨ (a1 = b1 ∧ (a2 < b2 ∨ (a2 = b2 ∧ a3 ≤ b3))).

Definition SFis_nan (x : spec_float) : bool :=
  match x with S754_nan => true | _ => false end.

(** No supplier of the batch scores more than [s]. *)
Definition is_max_score (l : list Supplier) (s : Supplier) : bool :=
  forallb (λ t, PrimFloat.leb (overall_score t) (overall_score s)) l.

(** No score of the batch is NaN. *)
Definition scores_comparable (l : list Supplier) : Prop :=
  Forall (λ s, is_nan (overall_score s) = false) l.

(** The suppliers of [l] whose score is [score], in the order of [l]. *)
Definition with_score (score : float) (l : list Supplier) : list Supplier :=
  List.filter (λ s, PrimFloat.eqb (overall_score s) score) l.

Definition score_fields : list string :=
  ["price_score"; "delivery_reliability_score"; "quality_rating_score"].

(** The float a score field of the record coerces to, if it is present and
    [float()] takes it. *)
Definition coerced `{PyBuiltins} (data : gmap string pyval) (field : string)
    : option float :=
  match data !! field with
  | Some v => match py_float v with Ok x => Some x | Raise _ => None end
  | None => None
  end.

(** The validation rules of a record: the four fields are keys, and each
    score coerces to a float between 0 and 100. *)
Definition valid_record `{PyBuiltins} (data : gmap string pyval) : bool :=
  forallb (λ field, bool_decide (is_Some (data !! field))) required_fields_list
  && forallb (λ field, match coerced data field with
                       | Some x => in_range (PFloat x)
                       | None => false
                       end) score_fields.

(** A supplier whose scores passed the range check and whose overall score
    is the computed one. *)
Definition validated (s : Supplier) : Prop :=
  in_range (PFloat (price_score s)) = true
  ∧ in_range (PFloat (delivery_reliability_score s)) = true
  ∧ in_range (PFloat (quality_rating_score s)) = true
  ∧ overall_score s = calculate_overall_score s.

(** The supplier holds the fields of the record. *)
Definition built_from `{PyBuiltins} (data : gmap string pyval) (s : Supplier)
    : Prop :=
  data !! "supplier_id" = Some (supplier_id s)
  ∧ coerced data "price_score" = Some (price_score s)
  ∧ coerced data "delivery_reliability_score" = Some (delivery_reliability_score s)
  ∧ coerced data "quality_rating_score" = Some (quality_rating_score s).

(** The rows the input text decodes to. *)
Definition decode_rows `{PyBuiltins} (data format_type : string)
    : result (list (gmap string pyval)) :=
  if String.eqb format_type "csv" then Ok (csv_DictReader data)
  else json_loads_suppliers data.

(** The message holds the text [field]. *)
Definition mentions (msg field : string) : Prop :=
  ∃ pre post, msg = pre +:+ field +:+ post.

(** The sum [calculate_overall_score] rounds. *)
Definition weighted_sum (supplier : Supplier) : float :=
  (price_score supplier / 100 * 0.4
   + delivery_reliability_score supplier / 100 * 0.3
   + quality_rating_score supplier / 100 * 0.3)%float.

(** The absolute value of [x] times 100 is [k + 1/2], and [s] is its sign. *)
Definition on_half (x : float) (s : bool) (k : Z) : Prop :=
  ∃ m e, Prim2SF x = S754_finite s m e ∧ e < 0 ∧ 0 ≤ k
         ∧ 2 * (Z.pos m * 100) = (2 * k + 1) * 2 ^ (- e).

(** The sum as the specification simplifies it. *)
Definition simplified_sum (supplier : Supplier) : float :=
  (0.004 * price_score supplier
   + 0.003 * delivery_reliability_score supplier
   + 0.003 * quality_rating_score supplier)%float.

(** [round(0.004p + 0.003d + 0.003q, 2)] in exact arithmetic, for integer
    scores, in hundredths; a half goes to the even neighbour. *)
Definition exact_hundredths (p d q : Z) : Z :=
  half_even (4 * p + 3 * d + 3 * q) 10.

(** The three scores are floats between 0 and 100. *)
Definition scores_in_range (supplier : Supplier) : Prop :=
  in_range (PFloat (price_score supplier)) = true
  ∧ in_range (PFloat (delivery_reliability_score supplier)) = true
  ∧ in_range (PFloat (quality_rating_score supplier)) = true.

(** ** The values of floats, for the bounds *)

Definition pow2 (e : Z) : Q := Qpower 2 e.

(** The value of a finite float; 0 for the others. *)
Definition SF2Q (x : spec_float) : Q :=
  match x with
  | S754_finite s m e =>
      (if s then - inject_Z (Z.pos m) else inject_Z (Z.pos m)) * pow2 e
  | _ => 0
  end.

(** A zero or a positive finite float. *)
Definition nonneg_finite (x : spec_float) : bool :=
  match x with
  | S754_zero _ | S754_finite false _ _ => true
  | _ => false
  end.

(** A zero or a positive finite float of value at most [B]. *)
Definition at_most (x : spec_float) (B : Q) : Prop :=
  nonneg_finite x = true ∧ (SF2Q x <= B)%Q.

(** What the upper bounds need of a shift record at the exponent [e], for
    the value [X] it stands for: the mantissa is below [X], strictly if the
    round bit is set. *)
Definition below (mrs : shr_record) (e : Z) (X : Q) : Prop :=
  (0 ≤ shr_m mrs)%Z
  ∧ (inject_Z (shr_m mrs) * pow2 e <= X)%Q
  ∧ (shr_r mrs = true → (inject_Z (shr_m mrs) * pow2 e < X)%Q).

(** The mantissa [M] is the one the format gives the exponent [E]. *)
Definition canonical (M : positive) (E : Z) : Prop :=
  E = fexp prec emax (Z.pos (digits2_pos M) + E).
(** * Facts

    ** The order of floats *)

Lemma SFcompare_rank x y :
  SFis_nan x = false → SFis_nan y = false →
  SFcompare x y =
    Some (let '(a1, a2, a3) := SFrank x in
          let '(b1, b2, b3) := SFrank y in
          match a1 ?= b1 with
          | Eq => match a2 ?= b2 with Eq => a3 ?= b3 | c => c end
          | c => c
          end).
Proof.
  destruct x as [sx|sx| |sx mx ex], y as [sy|sy| |sy my ey];
    try discriminate; intros _ _; simpl;
    try (destruct sx; try destruct sy; reflexivity);
    try (destruct sy; reflexivity).
  change (Pos.compare_cont Eq mx my) with (mx ?= my)%positive.
  destruct sx, sy; simpl; try reflexivity.
  rewrite Z.compare_opp, (Z.compare_antisym ex ey).
  destruct (ex ?= ey); simpl; reflexivity.
Qed.

Lemma SFleb_rank x y :
  SFis_nan x = false → SFis_nan y = false →
  SFleb x y = true ↔ lex_le (SFrank x) (SFrank y).
Proof.
  intros Hx Hy. unfold SFleb. rewrite (SFcompare_rank x y Hx Hy).
  destruct (SFrank x) as [[a1 a2] a3], (SFrank y) as [[b1 b2] b3]. simpl.
  destruct (Z.compare_spec a1 b1), (Z.compare_spec a2 b2), (Z.compare_spec a3 b3);
    split; intros; try discriminate; try reflexivity; lia.
Qed.

Lemma SFltb_rank x y :
  SFis_nan x = false → SFis_nan y = false →
  SFltb x y = true ↔ ¬ lex_le (SFrank y) (SFrank x).
Proof.
  intros Hx Hy. unfold SFltb. rewrite (SFcompare_rank x y Hx Hy).
  destruct (SFrank x) as [[a1 a2] a3], (SFrank y) as [[b1 b2] b3]. simpl.
  destruct (Z.compare_spec a1 b1), (Z.compare_spec a2 b2), (Z.compare_spec a3 b3);
    split; intros; try discriminate; try reflexivity; lia.
Qed.

Lemma SFeqb_rank x y :
  SFis_nan x = false → SFis_nan y = false →
  SFeqb x y = true ↔ SFrank x = SFrank y.
Proof.
  intros Hx Hy. unfold SFeqb. rewrite (SFcompare_rank x y Hx Hy).
  destruct (SFrank x) as [[a1 a2] a3], (SFrank y) as [[b1 b2] b3]. simpl.
  destruct (Z.compare_spec a1 b1), (Z.compare_spec a2 b2), (Z.compare_spec a3 b3);
    split; intros Heq; try discriminate; try reflexivity;
    try (subst; reflexivity); inversion Heq; lia.
Qed.

Lemma is_nan_Prim2SF x : is_nan x = SFis_nan (Prim2SF x).
Proof.
  unfold is_nan. rewrite FloatAxioms.eqb_spec. unfold SFeqb.
  destruct (Prim2SF x) as [s|s| |s m e]; simpl; try reflexivity.
  - destruct s; reflexivity.
  - change (Pos.compare_cont Eq m m) with (m ?= m)%positive.
    destruct s; rewrite Z.compare_refl, Pos.compare_refl; reflexivity.
Qed.

Lemma leb_rank (x y : float) :
  is_nan x = false → is_nan y = false →
  PrimFloat.leb x y = true ↔ lex_le (frank x) (frank y).
Proof.
  rewrite !is_nan_Prim2SF, FloatAxioms.leb_spec. apply SFleb_rank.
Qed.

Lemma ltb_rank (x y : float) :
  is_nan x = false → is_nan y = false →
  PrimFloat.ltb x y = true ↔ ¬ lex_le (frank y) (frank x).
Proof.
  rewrite !is_nan_Prim2SF, FloatAxioms.ltb_spec. apply SFltb_rank.
Qed.

Lemma eqb_rank (x y : float) :
  is_nan x = false → is_nan y = false →
  PrimFloat.eqb x y = true ↔ frank x = frank y.
Proof.
  rewrite !is_nan_Prim2SF, FloatAxioms.eqb_spec. apply SFeqb_rank.
Qed.

Lemma leb_not_nan (x y : float) :
  PrimFloat.leb x y = true → is_nan x = false ∧ is_nan y = false.
Proof.
  rewrite !is_nan_Prim2SF, FloatAxioms.leb_spec. unfold SFleb.
  destruct (Prim2SF x), (Prim2SF y); simpl; try discriminate; auto.
Qed.

(** ** Stable sorting *)

Section SortedFacts.
Context {A K : Type} (key : A → K) (ltb : K → K → bool).
Context (good : K → Prop) (le : K → K → Prop).
Hypothesis ltb_le : ∀ a b, good a → good b → ltb a b = true → le a b.
Hypothesis nltb_le : ∀ a b, good a → good b → ltb a b = false → le b a.
Hypothesis le_trans : ∀ a b c, le a b → le b c → le a c.

Abbreviation insert_sorted := (insert_sorted key ltb).
Abbreviation py_sorted := (py_sorted key ltb).
Abbreviation py_sorted_reverse := (py_sorted_reverse key ltb).
Abbreviation good_keys := (Forall (λ x, good (key x))).
Abbreviation ascending := (StronglySorted (λ x y, le (key x) (key y))).
Abbreviation descending := (StronglySorted (λ x y, le (key y) (key x))).

Lemma insert_sorted_perm x l : Permutation (insert_sorted x l) (x :: l).
Proof.
  induction l as [|y l IH]; simpl; [reflexivity|].
  destruct (ltb (key y) (key x)); [|reflexivity].
  rewrite IH. apply perm_swap.
Qed.

Lemma py_sorted_perm l : Permutation (py_sorted l) l.
Proof.
  induction l as [|x l IH]; simpl; [reflexivity|].
  rewrite insert_sorted_perm. now constructor.
Qed.

Lemma py_sorted_reverse_perm l : Permutation (py_sorted_reverse l) l.
Proof.
  unfold py_sorted_reverse.
  rewrite <- Permutation_rev, py_sorted_perm. symmetry. apply Permutation_rev.
Qed.

Lemma insert_sorted_ascending x l :
  good (key x) → good_keys l → ascending l → ascending (insert_sorted x l).
Proof.
  intros Hx Hl Hs. revert Hl.
  induction Hs as [|y l Hs IH Hy]; intros Hl; simpl.
  - repeat constructor.
  - inversion Hl as [|? ? Hgy Hgl]; subst.
    destruct (ltb (key y) (key x)) eqn:Hlt.
    + constructor; [auto|].
      rewrite insert_sorted_perm. constructor; [|assumption].
      now apply ltb_le.
    + assert (Hxy : le (key x) (key y)) by now apply nltb_le.
      constructor; [now constructor|]. constructor; [assumption|].
      eapply Forall_impl; [exact Hy|]. intros z Hz. simpl in Hz.
      eapply le_trans; eassumption.
Qed.

Lemma py_sorted_ascending l : good_keys l → ascending (py_sorted l).
Proof.
  induction 1 as [|x l Hx Hl IH]; simpl; [constructor|].
  apply insert_sorted_ascending; auto.
  now rewrite py_sorted_perm.
Qed.

Lemma ascending_rev l : ascending l → descending (rev l).
Proof.
  induction 1 as [|x l Hs IH Hx]; simpl; [constructor|].
  apply StronglySorted_app_2; [|assumption|repeat constructor].
  intros y z Hy Hz. apply list_elem_of_In in Hy. apply in_rev in Hy.
  apply list_elem_of_singleton in Hz. subst z.
  rewrite Forall_forall in Hx. apply Hx. now apply list_elem_of_In.
Qed.

Lemma py_sorted_reverse_descending l :
  good_keys l → descending (py_sorted_reverse l).
Proof.
  intros Hl. apply ascending_rev, py_sorted_ascending.
  now rewrite <- Permutation_rev.
Qed.

(** Stability: a class of elements none of which is below another keeps
    its order. *)
Section Stable.
Context (P : A → bool).
Hypothesis P_flat : ∀ x y, P x = true → P y = true → ltb (key y) (key x) = false.

Lemma filter_insert_sorted x l :
  List.filter P (insert_sorted x l) = List.filter P (x :: l).
Proof.
  induction l as [|y l IH]; simpl; [reflexivity|].
  destruct (ltb (key y) (key x)) eqn:Hlt; [|reflexivity].
  simpl. rewrite IH. simpl.
  destruct (P x) eqn:Px; [|reflexivity].
  destruct (P y) eqn:Py; [|reflexivity].
  rewrite (P_flat x y Px Py) in Hlt. discriminate.
Qed.

Lemma filter_py_sorted l : List.filter P (py_sorted l) = List.filter P l.
Proof.
  induction l as [|x l IH]; simpl; [reflexivity|].
  rewrite filter_insert_sorted. simpl. now rewrite IH.
Qed.

Lemma filter_py_sorted_reverse l :
  List.filter P (py_sorted_reverse l) = List.filter P l.
Proof.
  unfold py_sorted_reverse.
  now rewrite List.filter_rev, filter_py_sorted, List.filter_rev, rev_involutive.
Qed.
End Stable.
End SortedFacts.

(** ** Comparisons of floats, and the ranking *)

Lemma ltb_not_nan (x y : float) :
  PrimFloat.ltb x y = true → is_nan x = false ∧ is_nan y = false.
Proof.
  rewrite !is_nan_Prim2SF, FloatAxioms.ltb_spec. unfold SFltb.
  destruct (Prim2SF x), (Prim2SF y); simpl; try discriminate; auto.
Qed.

Lemma eqb_not_nan (x y : float) :
  PrimFloat.eqb x y = true → is_nan x = false ∧ is_nan y = false.
Proof.
  rewrite !is_nan_Prim2SF, FloatAxioms.eqb_spec. unfold SFeqb.
  destruct (Prim2SF x), (Prim2SF y); simpl; try discriminate; auto.
Qed.

Lemma lex_le_trans a b c : lex_le a b → lex_le b c → lex_le a c.
Proof.
  destruct a as [[a1 a2] a3], b as [[b1 b2] b3], c as [[c1 c2] c3].
  unfold lex_le. lia.
Qed.

Lemma lex_le_total a b : lex_le a b ∨ lex_le b a.
Proof.
  destruct a as [[a1 a2] a3], b as [[b1 b2] b3]. unfold lex_le. lia.
Qed.

Lemma lex_le_antisym a b : lex_le a b → lex_le b a → a = b.
Proof.
  destruct a as [[a1 a2] a3], b as [[b1 b2] b3]. unfold lex_le.
  intros H1 H2. repeat f_equal; lia.
Qed.

Lemma lex_le_dec a b : lex_le a b ∨ ¬ lex_le a b.
Proof.
  destruct a as [[a1 a2] a3], b as [[b1 b2] b3]. unfold lex_le. lia.
Qed.

Lemma lex_le_refl a : lex_le a a.
Proof. destruct a as [[a1 a2] a3]. unfold lex_le. lia. Qed.

Lemma leb_refl (x : float) : is_nan x = false → PrimFloat.leb x x = true.
Proof. intros Hx. apply leb_rank; auto. apply lex_le_refl. Qed.

Lemma leb_trans (x y z : float) :
  PrimFloat.leb x y = true → PrimFloat.leb y z = true → PrimFloat.leb x z = true.
Proof.
  intros Hxy Hyz.
  destruct (leb_not_nan _ _ Hxy) as [Hx Hy], (leb_not_nan _ _ Hyz) as [_ Hz].
  rewrite leb_rank in * by assumption. eapply lex_le_trans; eassumption.
Qed.

Lemma ltb_leb (x y : float) :
  PrimFloat.ltb x y = true → PrimFloat.leb x y = true.
Proof.
  intros Hlt. destruct (ltb_not_nan _ _ Hlt) as [Hx Hy].
  apply ltb_rank in Hlt; [|assumption..]. apply leb_rank; [assumption..|].
  destruct (lex_le_total (frank x) (frank y)); tauto.
Qed.

Lemma nltb_leb (x y : float) :
  is_nan x = false → is_nan y = false →
  PrimFloat.ltb x y = false → PrimFloat.leb y x = true.
Proof.
  intros Hx Hy Hlt. apply leb_rank; [assumption..|].
  destruct (lex_le_dec (frank y) (frank x)) as [|Hn]; [assumption|].
  apply (ltb_rank x y Hx Hy) in Hn. congruence.
Qed.

Lemma ltb_leb_false (x y : float) :
  PrimFloat.ltb x y = true → PrimFloat.leb y x = false.
Proof.
  intros Hlt. destruct (ltb_not_nan _ _ Hlt) as [Hx Hy].
  apply ltb_rank in Hlt; [|assumption..].
  destruct (PrimFloat.leb y x) eqn:E; [|reflexivity].
  apply leb_rank in E; [|assumption..]. contradiction.
Qed.

Lemma eqb_leb (x y : float) :
  PrimFloat.eqb x y = true ↔ PrimFloat.leb x y = true ∧ PrimFloat.leb y x = true.
Proof.
  split.
  - intros He. destruct (eqb_not_nan _ _ He) as [Hx Hy].
    apply eqb_rank in He; [|assumption..].
    rewrite !leb_rank by assumption. rewrite He. split; apply lex_le_refl.
  - intros [H1 H2]. destruct (leb_not_nan _ _ H1) as [Hx Hy].
    rewrite leb_rank in H1, H2 by assumption.
    apply eqb_rank; [assumption..|]. now apply lex_le_antisym.
Qed.

(** Suppliers with the score [score] are not below one another. *)
Lemma with_score_flat (score : float) (x y : Supplier) :
  PrimFloat.eqb (overall_score x) score = true →
  PrimFloat.eqb (overall_score y) score = true →
  PrimFloat.ltb (overall_score y) (overall_score x) = false.
Proof.
  intros Hx Hy. apply eqb_leb in Hx as [Hx _]. apply eqb_leb in Hy as [_ Hy].
  destruct (PrimFloat.ltb _ _) eqn:Hlt; [|reflexivity].
  apply ltb_leb_false in Hlt. rewrite (leb_trans _ _ _ Hx Hy) in Hlt. discriminate.
Qed.

Lemma ranked_suppliers_perm l : Permutation (ranked_suppliers l) l.
Proof. apply py_sorted_reverse_perm. Qed.

Lemma ranked_suppliers_stable score l :
  with_score score (ranked_suppliers l) = with_score score l.
Proof.
  apply filter_py_sorted_reverse. intros x y. apply with_score_flat.
Qed.

Lemma ranked_suppliers_descending l :
  scores_comparable l →
  StronglySorted
    (λ a b, PrimFloat.leb (overall_score b) (overall_score a) = true)
    (ranked_suppliers l).
Proof.
  intros Hl.
  apply (py_sorted_reverse_descending overall_score PrimFloat.ltb
           (λ x, is_nan x = false) (λ a b, PrimFloat.leb a b = true)).
  - intros a b _ _. apply ltb_leb.
  - intros a b. apply nltb_leb.
  - apply leb_trans.
  - exact Hl.
Qed.

(** The head of the ranking has the maximal score. *)
Lemma ranked_head_max l s ranked :
  scores_comparable l → ranked_suppliers l = s :: ranked →
  In s l ∧ is_max_score l s = true.
Proof.
  intros Hl Hr. pose proof (ranked_suppliers_perm l) as Hp.
  pose proof (ranked_suppliers_descending l Hl) as Hs.
  rewrite Hr in Hp, Hs. split.
  - eapply Permutation_in; [exact Hp|]. now left.
  - unfold is_max_score. apply forallb_forall. intros t Ht.
    apply (Permutation_in _ (Permutation_sym Hp)) in Ht.
    apply StronglySorted_inv in Hs as [_ Hs]. destruct Ht as [->|Ht].
    + apply leb_refl. unfold scores_comparable in Hl.
      rewrite Forall_forall in Hl. apply Hl.
      apply list_elem_of_In. eapply Permutation_in; [exact Hp|]. now left.
    + rewrite Forall_forall in Hs. apply Hs. now apply list_elem_of_In.
Qed.

Lemma top_suppliers_max l :
  scores_comparable l → top_suppliers l = List.filter (is_max_score l) l.
Proof.
  intros Hl. unfold top_suppliers.
  destruct (ranked_suppliers l) as [|s0 ranked] eqn:Hr.
  - pose proof (ranked_suppliers_perm l) as Hp. rewrite Hr in Hp.
    apply Permutation_nil in Hp. now subst l.
  - cbn [top_score_of py_float_eq]. rewrite <- Hr.
    change (List.filter _ (ranked_suppliers l))
      with (with_score (overall_score s0) (ranked_suppliers l)).
    rewrite ranked_suppliers_stable. unfold with_score.
    destruct (ranked_head_max l s0 ranked Hl Hr) as [Hin Hmax].
    apply List.filter_ext_in. intros s Hs.
    unfold is_max_score in Hmax. rewrite forallb_forall in Hmax.
    destruct (is_max_score l s) eqn:Hm.
    + unfold is_max_score in Hm. rewrite forallb_forall in Hm. apply eqb_leb. split; [now apply Hmax|now apply Hm].
    + destruct (PrimFloat.eqb _ _) eqn:He; [|reflexivity].
      apply eqb_leb in He as [_ He].
      rewrite <- Hm. symmetry. unfold is_max_score.
      apply forallb_forall. intros t Ht.
      eapply leb_trans; [now apply Hmax|exact He].
Qed.

(** The score of the head of the ranking is the maximum of the batch, and
    the suppliers listed are those of the batch with that score. *)
Lemma top_score_is_max l :
  scores_comparable l → l ≠ [] →
  ∃ m, top_score_of (ranked_suppliers l) = PFloat m
       ∧ (∃ s, In s l ∧ overall_score s = m)
       ∧ (∀ t, In t l → PrimFloat.leb (overall_score t) m = true)
       ∧ top_suppliers l = with_score m l.
Proof.
  intros Hl Hne. unfold top_suppliers.
  destruct (ranked_suppliers l) as [|s0 ranked] eqn:Hr.
  - pose proof (ranked_suppliers_perm l) as Hp. rewrite Hr in Hp.
    apply Permutation_nil in Hp. contradiction.
  - destruct (ranked_head_max l s0 ranked Hl Hr) as [Hin Hmax].
    exists (overall_score s0). split; [reflexivity|]. split; [eauto|]. split.
    + unfold is_max_score in Hmax. now rewrite forallb_forall in Hmax.
    + cbn [top_score_of py_float_eq]. rewrite <- Hr. apply ranked_suppliers_stable.
Qed.

(** ** Validation of a record *)

Lemma append_assoc (a b c : string) : (a +:+ b) +:+ c = a +:+ b +:+ c.
Proof.
  induction a as [|ch a IH]; [reflexivity|].
  change (String ch ((a +:+ b) +:+ c) = String ch (a +:+ b +:+ c)).
  now rewrite IH.
Qed.

Lemma mentions_prefix (pre msg field : string) :
  mentions msg field → mentions (pre +:+ msg) field.
Proof.
  intros (p & q & ->). exists (pre +:+ p), q. now rewrite append_assoc.
Qed.

Lemma join_mentions (sep : string) (l : list string) (field : string) :
  In field l → mentions (join sep l) field.
Proof.
  induction l as [|x l IH]; [intros []|].
  intros [->|Hin].
  - destruct l as [|y l].
    + exists "", "". unfold join. simpl. clear. induction field; [reflexivity|].
      change (String a field = String a (field +:+ "")). now f_equal.
    + exists "", (sep +:+ join sep (y :: l)). reflexivity.
  - destruct l as [|y l]; [destruct Hin|].
    change (join sep (x :: y :: l)) with (x +:+ sep +:+ join sep (y :: l)).
    do 2 apply mentions_prefix. auto.
Qed.

Section Validation.
Context `{PyBuiltins}.

Lemma missing_fields_of_spec data field :
  In field (missing_fields_of data)
  ↔ In field required_fields_list ∧ data !! field = None.
Proof.
  unfold missing_fields_of. rewrite List.filter_In.
  destruct (data !! field) as [v|] eqn:E.
  - rewrite bool_decide_eq_true_2 by eauto. simpl. split; intros []; congruence.
  - rewrite bool_decide_eq_false_2 by (intros [? ?]; congruence). simpl. tauto.
Qed.

Lemma missing_fields_of_nil data :
  missing_fields_of data = []
  ↔ forallb (λ field, bool_decide (is_Some (data !! field))) required_fields_list = true.
Proof.
  unfold missing_fields_of. generalize required_fields_list as l.
  induction l as [|f l IH]; simpl; [tauto|].
  destruct (bool_decide (is_Some (data !! f))); simpl; [exact IH|].
  split; discriminate.
Qed.

Lemma _process_supplier_data_missing data self :
  missing_fields_of data ≠ [] →
  _process_supplier_data data self
  = (Raise (MissingFieldError (missing_fields_of data)), self).
Proof.
  intros Hm. unfold _process_supplier_data.
  now rewrite bool_decide_eq_false_2.
Qed.

Lemma validate_score_float x field sid :
  validate_score (PFloat x) field sid
  = if in_range (PFloat x) then Ok true
    else Raise (InvalidRangeError (py_str sid) field).
Proof. unfold validate_score. simpl. now destruct (_ && _). Qed.
End Validation.

Section Processing.
Context `{PyBuiltins}.

Lemma required_present data :
  missing_fields_of data = [] →
  ∃ sid p d q,
    data !! "supplier_id" = Some sid ∧ data !! "price_score" = Some p
    ∧ data !! "delivery_reliability_score" = Some d
    ∧ data !! "quality_rating_score" = Some q.
Proof.
  intros Hm.
  assert (Hall : ∀ f, In f required_fields_list → is_Some (data !! f)).
  { intros f Hf. destruct (data !! f) eqn:E; [eauto|].
    assert (In f (missing_fields_of data)) by now apply missing_fields_of_spec.
    rewrite Hm in *. contradiction. }
  destruct (Hall "supplier_id") as [sid ?]; [simpl; tauto|].
  destruct (Hall "price_score") as [p ?]; [simpl; tauto|].
  destruct (Hall "delivery_reliability_score") as [d ?]; [simpl; tauto|].
  destruct (Hall "quality_rating_score") as [q ?]; [simpl; tauto|].
  eauto 10.
Qed.

Lemma _process_supplier_data_cases data self :
  (valid_record data = true
   ∧ ∃ s, _process_supplier_data data self
          = (Ok (), {| suppliers := suppliers self ++ [s];
                       validation_report := validation_report self |})
        ∧ built_from data s ∧ validated s)
  ∨ (valid_record data = false
     ∧ ∃ e, _process_supplier_data data self = (Raise e, self)).
Proof.
  destruct (decide (missing_fields_of data = [])) as [Hm|Hm].
  - destruct (required_present data Hm) as (sid & p & d & q & Hsid & Hp & Hd & Hq).
    pose proof (proj1 (missing_fields_of_nil data) Hm) as Hall.
    unfold _process_supplier_data, valid_record, built_from, validated, coerced, getitem.
    rewrite Hall, bool_decide_eq_true_2 by assumption.
    cbn [negb andb forallb score_fields]. rewrite Hsid, Hp, Hd, Hq.
    cbn [mbind result_bind mret result_ret].
    destruct (py_float p) as [fp|ep]; [|right; eauto].
    destruct (py_float d) as [fd|ed]; [|right; rewrite andb_false_r; eauto].
    destruct (py_float q) as [fq|eq]; [|right; rewrite !andb_false_r; eauto].
    cbn [mbind result_bind mret result_ret]. rewrite !validate_score_float. cbn [price_score delivery_reliability_score quality_rating_score supplier_id].
    destruct (in_range (PFloat fp)) eqn:Rp; [|right; eauto].
    destruct (in_range (PFloat fd)) eqn:Rd; [|right; eauto].
    destruct (in_range (PFloat fq)) eqn:Rq; [|right; eauto].
    left. split; [reflexivity|]. eexists. split; [reflexivity|].
    cbn. repeat split; assumption.
  - right. split.
    + unfold valid_record. destruct (forallb _ required_fields_list) eqn:E; [|reflexivity].
      apply missing_fields_of_nil in E. contradiction.
    + eexists. now apply _process_supplier_data_missing.
Qed.

Lemma process_rows_app rows1 rows2 self :
  process_rows (rows1 ++ rows2) self
  = match process_rows rows1 self with
    | (Ok _, self') => process_rows rows2 self'
    | (Raise e, self') => (Raise e, self')
    end.
Proof.
  revert self. induction rows1 as [|r rows1 IH]; intros self; simpl; [reflexivity|].
  destruct (_process_supplier_data r self) as [[[]|e] self']; [apply IH|reflexivity].
Qed.

Lemma process_rows_valid rows self :
  forallb valid_record rows = true →
  fst (process_rows rows self) = Ok ()
  ∧ length (suppliers (snd (process_rows rows self)))
    = (length (suppliers self) + length rows)%nat.
Proof.
  revert self. induction rows as [|r rows IH]; intros self Hv; simpl.
  - split; [reflexivity|lia].
  - simpl in Hv. apply andb_true_iff in Hv as [Hr Hv].
    destruct (_process_supplier_data_cases r self)
      as [[_ (s & -> & _)]|[Hr' _]]; [|congruence].
    match goal with |- context [process_rows rows ?st] =>
      destruct (IH st Hv) as [-> ->] end.
    split; [reflexivity|]. simpl. rewrite length_app. simpl. lia.
Qed.

Lemma process_rows_validated rows self :
  Forall validated (suppliers self) →
  Forall validated (suppliers (snd (process_rows rows self))).
Proof.
  revert self. induction rows as [|r rows IH]; intros self Hs; simpl; [assumption|].
  destruct (_process_supplier_data_cases r self)
    as [[_ (s & -> & _ & Hv)]|[_ (e & ->)]]; [|assumption].
  apply IH. simpl. apply Forall_app. split; [assumption|]. now constructor.
Qed.

Lemma parse_input_data_rows data format_type rows self :
  isascii data = true → format_type = "csv" ∨ format_type = "json" →
  decode_rows data format_type = Ok rows →
  parse_input_data data format_type self = process_rows rows self.
Proof.
  intros Ha Hf Hd. unfold parse_input_data, validate_language, validate_format.
  rewrite Ha. cbn [negb].
  destruct Hf as [-> | ->]; cbn [existsb String.eqb Ascii.eqb Bool.eqb orb negb andb];
    unfold decode_rows in Hd; cbn in Hd.
  - unfold parse_csv_data. now injection Hd as ->.
  - unfold parse_json_data. now rewrite Hd.
Qed.

Lemma parse_input_data_validated data format_type self :
  Forall validated (suppliers self) →
  Forall validated (suppliers (snd (parse_input_data data format_type self))).
Proof.
  intros Hs. unfold parse_input_data.
  destruct (validate_language data); [|assumption].
  destruct (validate_format data format_type); [|assumption].
  destruct (String.eqb format_type "csv").
  - apply process_rows_validated, Hs.
  - unfold parse_json_data. destruct (json_loads_suppliers data); [|assumption].
    apply process_rows_validated, Hs.
Qed.

Lemma py_float_errors v e :
  py_float v = Raise e →
  (∃ s, e = FloatValueError s) ∨ (∃ w, e = FloatTypeError w)
  ∨ (∃ n, e = FloatOverflowError n).
Proof.
  destruct v as [|b|n|x|s|o]; simpl; try discriminate.
  - intros [= <-]. eauto.
  - destruct (Prim2SF (float_of_Z n)); try discriminate. intros [= <-]. eauto.
  - destruct (float_of_str s); try discriminate. intros [= <-]. eauto.
  - intros [= <-]. eauto.
Qed.

(** What [_process_supplier_data] can raise. *)
Lemma _process_supplier_data_errors data self e :
  fst (_process_supplier_data data self) = Raise e →
  e = MissingFieldError (missing_fields_of data)
  ∨ (∃ s, e = FloatValueError s) ∨ (∃ w, e = FloatTypeError w)
  ∨ (∃ n, e = FloatOverflowError n)
  ∨ (∃ sid field, e = InvalidRangeError sid field).
Proof.
  destruct (decide (missing_fields_of data = [])) as [Hm|Hm].
  - destruct (required_present data Hm) as (sid & p & d & q & Hsid & Hp & Hd & Hq).
    unfold _process_supplier_data, getitem.
    rewrite bool_decide_eq_true_2 by assumption.
    cbn [negb]. rewrite Hsid, Hp, Hd, Hq.
    cbn [mbind result_bind mret result_ret].
    destruct (py_float p) as [fp|ep] eqn:Ep;
      [|intros [= <-]; right; destruct (py_float_errors _ _ Ep) as [?|[?|?]]; tauto].
    destruct (py_float d) as [fd|ed] eqn:Ed;
      [|intros [= <-]; right; destruct (py_float_errors _ _ Ed) as [?|[?|?]]; tauto].
    destruct (py_float q) as [fq|eq] eqn:Eq;
      [|intros [= <-]; right; destruct (py_float_errors _ _ Eq) as [?|[?|?]]; tauto].
    cbn [mbind result_bind mret result_ret].
    rewrite !validate_score_float.
    cbn [price_score delivery_reliability_score quality_rating_score supplier_id].
    destruct (in_range (PFloat fp)); [|intros [= <-]; do 4 right; eauto].
    destruct (in_range (PFloat fd)); [|intros [= <-]; do 4 right; eauto].
    destruct (in_range (PFloat fq)); [|intros [= <-]; do 4 right; eauto].
    discriminate.
  - rewrite _process_supplier_data_missing by assumption. intros [= <-]. now left.
Qed.

Lemma missing_fields_all_named_aux data self :
  (∃ field, In field required_fields_list ∧ data !! field = None) →
  ∃ msg,
    _process_supplier_data data self = (Raise (ValueError msg), self)
    ∧ ValueError msg = MissingFieldError (missing_fields_of data)
    ∧ ∀ field, In field required_fields_list → data !! field = None →
               In field (missing_fields_of data) ∧ mentions msg field.
Proof.
  intros (f0 & Hf0 & Hnone).
  assert (Hm : missing_fields_of data ≠ []).
  { intros Hnil. assert (Hin : In f0 (missing_fields_of data))
      by now apply missing_fields_of_spec.
    rewrite Hnil in Hin. destruct Hin. }
  eexists. split; [now apply _process_supplier_data_missing|].
  split; [reflexivity|]. intros field Hf Hn.
  assert (Hin : In field (missing_fields_of data))
    by now apply missing_fields_of_spec.
  split; [exact Hin|]. now apply mentions_prefix, join_mentions.
Qed.

(** The type check of [validate_score] is never what fails. *)
Lemma InvalidTypeError_unreachable data self sid field :
  fst (_process_supplier_data data self) ≠ Raise (InvalidTypeError sid field).
Proof.
  intros He. apply _process_supplier_data_errors in He.
  destruct He as [He|[[s He]|[[w He]|[[n He]|(sid' & field' & He)]]]];
    try discriminate He;
    unfold InvalidTypeError, MissingFieldError, InvalidRangeError in He;
    cbv [String.append] in He; discriminate He.
Qed.
End Processing.

(** ** Upper bounds of the binary64 operations *)

Section Rounding.
Local Open Scope Q_scope.

Lemma pow2_pos e : 0 < pow2 e.
Proof. apply Qpower_0_lt. reflexivity. Qed.

Lemma pow2_add a b : pow2 (a + b) == pow2 a * pow2 b.
Proof. apply Qpower_plus. discriminate. Qed.

Lemma pow2_succ e : pow2 (e + 1) == 2 * pow2 e.
Proof. rewrite pow2_add. change (pow2 1) with 2. ring. Qed.

Lemma pow2_Z n : (0 ≤ n)%Z → inject_Z (2 ^ n) == pow2 n.
Proof. intros Hn. now apply Zpower_Qpower. Qed.

Lemma pow2_le a b : (a ≤ b)%Z → pow2 a <= pow2 b.
Proof. intros Hab. apply Qpower_le_compat_l; [exact Hab|discriminate]. Qed.

Lemma pow2_lt_inv a b : pow2 a < pow2 b → (a < b)%Z.
Proof. intros Hab. apply (Qpower_lt_compat_l_inv 2); [exact Hab|reflexivity]. Qed.

Lemma shr_1_below mrs e X : below mrs e X → below (shr_1 mrs) (e + 1) X.
Proof.
  destruct mrs as [m r s]. unfold below. cbn [shr_m shr_r]. intros (Hm & Hle & Hlt).
  pose proof (pow2_pos e) as Hp. pose proof (pow2_succ e) as Hs.
  destruct m as [|[p|p|]|p]; cbn [shr_1 shr_m shr_r]; try lia.
  - split; [lia|]. split; [|discriminate].
    change (inject_Z 0) with 0 in *. lra.
  - split; [lia|].
    assert (Heq : inject_Z (Z.pos p~1) == 2 * inject_Z (Z.pos p) + 1).
    { rewrite Pos2Z.inj_xI, inject_Z_plus, inject_Z_mult. reflexivity. }
    rewrite Heq in Hle. rewrite Hs. split; [|intros _]; nra.
  - split; [lia|].
    assert (Heq : inject_Z (Z.pos p~0) == 2 * inject_Z (Z.pos p)).
    { rewrite Pos2Z.inj_xO, inject_Z_mult. reflexivity. }
    rewrite Heq in Hle. rewrite Hs. split; [|discriminate]. nra.
  - split; [lia|]. change (inject_Z 1) with 1 in Hle. change (inject_Z 0) with 0.
    rewrite Hs. split; [|intros _]; nra.
Qed.

Lemma iter_pos_shr_1_below p mrs e X :
  below mrs e X → below (SpecFloat.iter_pos shr_1 p mrs) (e + Z.pos p) X.
Proof.
  revert mrs e. induction p as [p IH|p IH|]; intros mrs e Hb; cbn [SpecFloat.iter_pos].
  - replace (e + Z.pos p~1)%Z with (e + 1 + Z.pos p + Z.pos p)%Z by lia.
    now apply IH, IH, shr_1_below.
  - replace (e + Z.pos p~0)%Z with (e + Z.pos p + Z.pos p)%Z by lia.
    now apply IH, IH.
  - now apply shr_1_below.
Qed.

(** A shift to an exponent that is not below the present one. *)
Lemma shr_below mrs e n X :
  below mrs e X → (0 ≤ n)%Z →
  below (fst (shr mrs e n)) (snd (shr mrs e n)) X ∧ snd (shr mrs e n) = (e + n)%Z.
Proof.
  intros Hb Hn. destruct n as [|p|p]; simpl; [|now split; [apply iter_pos_shr_1_below|]|lia].
  now rewrite Z.add_0_r.
Qed.

Lemma digits2_pos_size m : digits2_pos m = Pos.size m.
Proof. induction m; simpl; congruence. Qed.

Lemma digits_bounds (m : positive) :
  pow2 (Z.pos (digits2_pos m) - 1) <= inject_Z (Z.pos m)
  ∧ inject_Z (Z.pos m) < pow2 (Z.pos (digits2_pos m)).
Proof.
  rewrite digits2_pos_size.
  pose proof (Pos.size_gt m) as Hgt. pose proof (Pos.size_le m) as Hle.
  assert (Hgt' : (Z.pos m < 2 ^ Z.pos (Pos.size m))%Z).
  { rewrite <- Pos2Z.inj_pow. exact Hgt. }
  assert (Hle' : (2 ^ Z.pos (Pos.size m) ≤ 2 * Z.pos m)%Z).
  { rewrite <- Pos2Z.inj_pow. exact Hle. }
  assert (Hs : (2 ^ Z.pos (Pos.size m) = 2 * 2 ^ (Z.pos (Pos.size m) - 1))%Z).
  { rewrite <- Z.pow_succ_r by lia. f_equal. lia. }
  rewrite <- !pow2_Z by lia. rewrite <- Zle_Qle, <- Zlt_Qlt. lia.
Qed.

Lemma value_digits (m : positive) (e : Z) :
  pow2 (Z.pos (digits2_pos m) + e - 1) <= inject_Z (Z.pos m) * pow2 e
  ∧ inject_Z (Z.pos m) * pow2 e < pow2 (Z.pos (digits2_pos m) + e).
Proof.
  destruct (digits_bounds m) as [Hlo Hhi]. pose proof (pow2_pos e) as Hp.
  replace (Z.pos (digits2_pos m) + e - 1)%Z
    with (Z.pos (digits2_pos m) - 1 + e)%Z by lia.
  rewrite !pow2_add. split; nra.
Qed.

Lemma digits_le_of_value_le (m M : positive) (e E : Z) :
  inject_Z (Z.pos m) * pow2 e <= inject_Z (Z.pos M) * pow2 E →
  (Z.pos (digits2_pos m) + e ≤ Z.pos (digits2_pos M) + E)%Z.
Proof.
  intros Hle. destruct (value_digits m e) as [Hlo _].
  destruct (value_digits M E) as [_ Hhi].
  assert (Hlt : pow2 (Z.pos (digits2_pos m) + e - 1)
                < pow2 (Z.pos (digits2_pos M) + E)) by lra.
  apply pow2_lt_inv in Hlt. lia.
Qed.

Lemma fexp_mono a b : (a ≤ b)%Z → (fexp prec emax a ≤ fexp prec emax b)%Z.
Proof. unfold fexp, emin. lia. Qed.

Lemma fexp_ge a : (-1074 ≤ fexp prec emax a)%Z.
Proof. unfold fexp, emin, prec, emax. lia. Qed.

Lemma round_nearest_even_le mrs K :
  (0 ≤ shr_m mrs)%Z → (shr_m mrs ≤ K)%Z → (shr_r mrs = true → shr_m mrs < K)%Z →
  (0 ≤ round_nearest_even (shr_m mrs) (loc_of_shr_record mrs) ≤ K)%Z.
Proof.
  destruct mrs as [m [|] [|]]; cbn [shr_m shr_r loc_of_shr_record round_nearest_even];
    intros H0 Hle Hlt; try lia.
  specialize (Hlt eq_refl). destruct (IntDef.Z.even m); lia.
Qed.

Lemma fexp_zero_digits ex :
  (ex ≤ fexp prec emax (0 + ex))%Z → fexp prec emax (0 + ex) = (-1074)%Z.
Proof. unfold fexp, emin, prec, emax. lia. Qed.

Lemma shr_record_of_loc_below m l e X :
  (0 ≤ m)%Z → inject_Z m * pow2 e <= X →
  (l ≠ loc_Exact → inject_Z m * pow2 e < X) →
  below (shr_record_of_loc m l) e X.
Proof.
  intros Hm Hle Hlt. unfold below.
  destruct l as [|[| |]]; cbn [shr_record_of_loc shr_m shr_r];
    (split; [exact Hm|split; [exact Hle|]]); intros Hr;
    try discriminate Hr; now apply Hlt.
Qed.

(** The second shift of [binary_round_aux], of an exact mantissa. *)
Lemma shr_fexp_exact_below m e :
  (0 ≤ m)%Z →
  (0 ≤ shr_m (fst (shr_fexp prec emax m e loc_Exact)))%Z
  ∧ inject_Z (shr_m (fst (shr_fexp prec emax m e loc_Exact)))
    * pow2 (snd (shr_fexp prec emax m e loc_Exact)) <= inject_Z m * pow2 e
  ∧ (snd (shr_fexp prec emax m e loc_Exact) = e
     ∨ snd (shr_fexp prec emax m e loc_Exact) = fexp prec emax (Zdigits2 m + e)).
Proof.
  intros Hm. unfold shr_fexp.
  set (n := (fexp prec emax (Zdigits2 m + e) - e)%Z).
  assert (Hb : below (shr_record_of_loc m loc_Exact) e (inject_Z m * pow2 e)).
  { apply shr_record_of_loc_below; [exact Hm|lra|congruence]. }
  destruct (Z_le_gt_dec 0 n) as [Hn|Hn].
  - destruct (shr_below _ e n _ Hb Hn) as [(H0 & Hle & _) He].
    split; [exact H0|]. split; [exact Hle|]. right. rewrite He. unfold n. lia.
  - destruct n as [|p|p]; try lia. cbn [shr fst snd shr_record_of_loc shr_m].
    split; [exact Hm|]. split; [lra|now left].
Qed.

Lemma inject_Z_pos (p : positive) : 0 < inject_Z (Z.pos p).
Proof. unfold Qlt. simpl. lia. Qed.

Lemma inject_Z_le_of_scaled (a b : Z) (u : Q) :
  0 < u → inject_Z a * u <= inject_Z b * u → (a ≤ b)%Z.
Proof. intros Hu Hle. rewrite Zle_Qle. nra. Qed.

Lemma inject_Z_lt_of_scaled (a b : Z) (u : Q) :
  0 < u → inject_Z a * u < inject_Z b * u → (a < b)%Z.
Proof. intros Hu Hlt. rewrite Zlt_Qlt. nra. Qed.

(** The upper bound of a rounding: what is at most a float of the format
    rounds to at most that float. *)
Lemma binary_round_aux_at_most mx ex lx X M E :
  (0 ≤ mx)%Z →
  inject_Z mx * pow2 ex <= X →
  (lx ≠ loc_Exact → inject_Z mx * pow2 ex < X) →
  (ex ≤ fexp prec emax (Zdigits2 mx + ex))%Z →
  canonical M E → (E ≤ emax - prec)%Z →
  X <= inject_Z (Z.pos M) * pow2 E →
  at_most (binary_round_aux prec emax false mx ex lx)
    (inject_Z (Z.pos M) * pow2 E).
Proof.
  intros Hmx Hlo Hstrict Hpre Hcan HE HX.
  set (B := inject_Z (Z.pos M) * pow2 E) in *.
  assert (HB : 0 < B).
  { unfold B. pose proof (pow2_pos E).
    pose proof (inject_Z_pos M). nra. }
  unfold binary_round_aux, shr_fexp.
  set (E1 := fexp prec emax (Zdigits2 mx + ex)) in *.
  assert (HE1 : (E1 ≤ E)%Z).
  { destruct mx as [|p|p]; [| |lia].
    - unfold E1. cbn [Zdigits2]. rewrite fexp_zero_digits by exact Hpre.
      rewrite Hcan. apply fexp_ge.
    - rewrite Hcan. apply fexp_mono, digits_le_of_value_le. fold B. lra. }
  pose proof (shr_record_of_loc_below mx lx ex X Hmx Hlo Hstrict) as Hb0.
  destruct (shr_below _ ex (E1 - ex) X Hb0 ltac:(lia)) as [Hb1 He1].
  destruct (shr (shr_record_of_loc mx lx) ex (E1 - ex)) as [mrs1 e1].
  cbn [fst snd] in Hb1, He1. subst e1.
  replace (ex + (E1 - ex))%Z with E1 in * by lia.
  destruct Hb1 as (Hm1 & Hle1 & Hlt1).
  set (K := (Z.pos M * 2 ^ (E - E1))%Z).
  assert (HK : B == inject_Z K * pow2 E1).
  { unfold K, B. rewrite inject_Z_mult, pow2_Z by lia.
    rewrite <- Qmult_assoc, <- pow2_add.
    now replace (E - E1 + E1)%Z with E by lia. }
  pose proof (pow2_pos E1) as Hu.
  assert (Hm1K : (shr_m mrs1 ≤ K)%Z).
  { apply (inject_Z_le_of_scaled _ _ (pow2 E1) Hu). rewrite <- HK.
    lra. }
  assert (Hr1K : shr_r mrs1 = true → (shr_m mrs1 < K)%Z).
  { intros Hr. apply (inject_Z_lt_of_scaled _ _ (pow2 E1) Hu). rewrite <- HK.
    specialize (Hlt1 Hr). lra. }
  destruct (round_nearest_even_le mrs1 K Hm1 Hm1K Hr1K) as [Hm2 Hm2K].
  set (m2 := round_nearest_even (shr_m mrs1) (loc_of_shr_record mrs1)) in *.
  assert (Hv2 : inject_Z m2 * pow2 E1 <= B).
  { rewrite HK. apply Qmult_le_compat_r; [now rewrite <- Zle_Qle|lra]. }
  destruct (shr_fexp_exact_below m2 E1 Hm2) as (Hm3 & Hle3 & He3).
  unfold shr_fexp in Hm3, Hle3, He3.
  destruct (shr (shr_record_of_loc m2 loc_Exact) E1
              (fexp prec emax (Zdigits2 m2 + E1) - E1)) as [mrs2 e2].
  cbn [fst snd] in Hm3, Hle3, He3.
  destruct (shr_m mrs2) as [|m3|m3] eqn:Em3; [| |lia].
  - split; [reflexivity|]. cbn [SF2Q]. lra.
  - assert (Hm2pos : (0 < m2)%Z).
    { destruct (Z_lt_le_dec 0 m2) as [|Hn]; [assumption|exfalso].
      assert (m2 = 0%Z) by lia.
      pose proof (inject_Z_pos m3).
      pose proof (pow2_pos e2).
      assert (Hz : inject_Z m2 == 0) by (subst m2; now rewrite H).
      rewrite Hz in Hle3. nra. }
    assert (He2 : (e2 ≤ emax - prec)%Z).
    { destruct He3 as [->| ->]; [lia|].
      destruct m2 as [|p2|p2]; try lia. cbn [Zdigits2].
      eapply Z.le_trans; [|exact HE]. rewrite Hcan.
      apply fexp_mono, digits_le_of_value_le. fold B. exact Hv2. }
    apply Z.leb_le in He2. rewrite He2.
    split; [reflexivity|]. cbn [SF2Q]. lra.
Qed.
End Rounding.

Section Operations.
Local Open Scope Q_scope.

Lemma at_most_zero s B : 0 <= B → at_most (S754_zero s) B.
Proof. intros HB. split; [reflexivity|exact HB]. Qed.

Lemma at_most_nonneg x B : at_most x B → 0 <= B.
Proof.
  intros [Hn Hle]. destruct x as [s|s| |[|] m e]; try discriminate Hn;
    cbn [SF2Q] in Hle; try exact Hle.
  pose proof (inject_Z_pos m). pose proof (pow2_pos e). nra.
Qed.

Lemma digits_ge (m : positive) (k : Z) :
  pow2 k <= inject_Z (Z.pos m) → (k + 1 ≤ Z.pos (digits2_pos m))%Z.
Proof.
  intros Hk. destruct (digits_bounds m) as [_ Hhi].
  assert (Hlt : pow2 k < pow2 (Z.pos (digits2_pos m))) by lra.
  apply pow2_lt_inv in Hlt. lia.
Qed.

Lemma digits_normal (m : positive) :
  digits2_pos m = 53%positive → pow2 52 <= inject_Z (Z.pos m).
Proof.
  intros Hd. destruct (digits_bounds m) as [Hlo _]. now rewrite Hd in Hlo.
Qed.

Lemma canonical_digits (m : positive) (e : Z) :
  canonical m e → (Z.pos (digits2_pos m) ≤ 53)%Z.
Proof. unfold canonical, fexp, emin, prec, emax. lia. Qed.

Lemma bounded_canonical (m : positive) (e : Z) :
  bounded prec emax m e = true → canonical m e ∧ (e ≤ emax - prec)%Z.
Proof.
  unfold bounded, canonical_mantissa, canonical. intros Hb.
  apply andb_true_iff in Hb as [Hc He]. apply Z.eqb_eq in Hc. apply Z.leb_le in He.
  split; [now symmetry|exact He].
Qed.

(** ** Multiplication by a normal float *)
Lemma SFmul_at_most x Bx (my : positive) (ey : Z) (M : positive) (E : Z) :
  at_most x Bx → digits2_pos my = 53%positive →
  Bx * (inject_Z (Z.pos my) * pow2 ey) <= inject_Z (Z.pos M) * pow2 E →
  canonical M E → (E ≤ emax - prec)%Z →
  at_most (SFmul prec emax x (S754_finite false my ey))
    (inject_Z (Z.pos M) * pow2 E).
Proof.
  intros Hx Hmy HB Hcan HE.
  pose proof (at_most_nonneg _ _ Hx) as HBx.
  pose proof (inject_Z_pos my) as Hmy0. pose proof (pow2_pos ey) as Hey.
  destruct Hx as [Hn Hle].
  destruct x as [s|s| |[|] mx ex]; try discriminate Hn; cbn [SFmul xorb].
  - apply at_most_zero. pose proof (inject_Z_pos M). pose proof (pow2_pos E). nra.
  - cbn [SF2Q] in Hle.
    pose proof (inject_Z_pos mx) as Hmx0. pose proof (pow2_pos ex) as Hex.
    assert (Hval : inject_Z (Z.pos (mx * my)) * pow2 (ex + ey)
                   == (inject_Z (Z.pos mx) * pow2 ex)
                      * (inject_Z (Z.pos my) * pow2 ey)).
    { rewrite Pos2Z.inj_mul, inject_Z_mult, pow2_add. ring. }
    apply (binary_round_aux_at_most _ _ _
             (inject_Z (Z.pos (mx * my)) * pow2 (ex + ey))); try assumption.
    + lia.
    + lra.
    + congruence.
    + cbn [Zdigits2].
      assert (Hd : (53 ≤ Z.pos (digits2_pos (mx * my)))%Z).
      { apply (digits_ge _ 52). rewrite Pos2Z.inj_mul, inject_Z_mult.
        pose proof (digits_normal my Hmy).
        assert (1 <= inject_Z (Z.pos mx)).
        { change 1 with (inject_Z 1). rewrite <- Zle_Qle. lia. }
        nra. }
      unfold fexp, emin, prec, emax. lia.
    + rewrite Hval.
      assert (Hvy : 0 < inject_Z (Z.pos my) * pow2 ey) by nra.
      remember (inject_Z (Z.pos my) * pow2 ey) as vy.
      remember (inject_Z (Z.pos mx) * pow2 ex) as vx. nra.
Qed.

(** ** Addition *)
Lemma iter_xO_value (m d : positive) :
  Z.pos (Pos.iter xO m d) = (Z.pos m * 2 ^ Z.pos d)%Z.
Proof.
  induction d as [|d IH] using Pos.peano_ind.
  - simpl. lia.
  - rewrite Pos.iter_succ, Pos2Z.inj_xO, IH, Pos2Z.inj_succ, Z.pow_succ_r by lia.
    lia.
Qed.

Lemma iter_xO_digits (m d : positive) :
  Z.pos (digits2_pos (Pos.iter xO m d)) = (Z.pos (digits2_pos m) + Z.pos d)%Z.
Proof.
  induction d as [|d IH] using Pos.peano_ind.
  - simpl. lia.
  - rewrite Pos.iter_succ. cbn [digits2_pos]. rewrite Pos2Z.inj_succ, IH. lia.
Qed.

(** [shl_align] keeps the value and the sum of digits and exponent, and
    reaches the exponent asked for if it is below the present one. *)
Lemma shl_align_spec (m : positive) (e e' : Z) :
  inject_Z (Z.pos (fst (shl_align m e e'))) * pow2 (snd (shl_align m e e'))
  == inject_Z (Z.pos m) * pow2 e
  ∧ (Z.pos (digits2_pos (fst (shl_align m e e'))) + snd (shl_align m e e')
     = Z.pos (digits2_pos m) + e)%Z
  ∧ snd (shl_align m e e') = Z.min e e'.
Proof.
  unfold shl_align. destruct (e' - e)%Z as [|d|d] eqn:Hd; cbn [fst snd].
  - split; [reflexivity|]. split; lia.
  - split; [reflexivity|]. split; lia.
  - split; [|split; [|lia]].
    + rewrite iter_xO_value, inject_Z_mult, pow2_Z by lia.
      rewrite <- Qmult_assoc, <- pow2_add.
      now replace (Z.pos d + e')%Z with e by lia.
    + rewrite iter_xO_digits. lia.
Qed.

Lemma binary_round_at_most (m : positive) (e : Z) (M : positive) (E : Z) :
  inject_Z (Z.pos m) * pow2 e <= inject_Z (Z.pos M) * pow2 E →
  canonical M E → (E ≤ emax - prec)%Z →
  at_most (binary_round prec emax false m e) (inject_Z (Z.pos M) * pow2 E).
Proof.
  intros Hle Hcan HE. unfold binary_round.
  destruct (shl_align_spec m e (fexp prec emax (Z.pos (digits2_pos m) + e)))
    as (Hv & Hd & He).
  destruct (shl_align m e (fexp prec emax (Z.pos (digits2_pos m) + e)))
    as [mz ez]. cbn [fst snd] in Hv, Hd, He.
  apply (binary_round_aux_at_most _ _ _ (inject_Z (Z.pos mz) * pow2 ez));
    try assumption.
  - lia.
  - lra.
  - congruence.
  - cbn [Zdigits2]. rewrite Hd. lia.
  - rewrite Hv. exact Hle.
Qed.

Lemma SFadd_at_most x y Bx By (M : positive) (E : Z) :
  at_most x Bx → at_most y By →
  Bx + By <= inject_Z (Z.pos M) * pow2 E →
  canonical M E → (E ≤ emax - prec)%Z →
  at_most (SFadd prec emax x y) (inject_Z (Z.pos M) * pow2 E).
Proof.
  intros Hx Hy HB Hcan HE.
  pose proof (at_most_nonneg _ _ Hx) as HBx.
  pose proof (at_most_nonneg _ _ Hy) as HBy.
  destruct Hx as [Hnx Hlx], Hy as [Hny Hly].
  destruct x as [sx|sx| |[|] mx ex]; try discriminate Hnx;
    destruct y as [sy|sy| |[|] my ey]; try discriminate Hny; cbn [SFadd].
  - destruct sx, sy; apply at_most_zero; lra.
  - split; [reflexivity|]. lra.
  - split; [reflexivity|]. lra.
  - cbn [SF2Q] in Hlx, Hly. cbn [cond_Zopp].
    destruct (shl_align_spec mx ex (Z.min ex ey)) as (Hvx & _ & Hex).
    destruct (shl_align_spec my ey (Z.min ex ey)) as (Hvy & _ & Hey).
    destruct (shl_align mx ex (Z.min ex ey)) as [mx' ex'].
    destruct (shl_align my ey (Z.min ex ey)) as [my' ey'].
    cbn [fst snd] in *.
    change (Z.pos mx' + Z.pos my')%Z with (Z.pos (mx' + my')).
    cbn [binary_normalize]. apply binary_round_at_most; try assumption.
    rewrite Pos2Z.inj_add, inject_Z_plus.
    assert (Hex' : ex' = Z.min ex ey) by lia.
    assert (Hey' : ey' = Z.min ex ey) by lia.
    rewrite Hex' in Hvx. rewrite Hey' in Hvy.
    rewrite Qmult_plus_distr_l, Hvx, Hvy. lra.
Qed.

(** ** Division *)
Lemma digits_bounds_Z (m : positive) :
  (2 ^ (Z.pos (digits2_pos m) - 1) ≤ Z.pos m < 2 ^ Z.pos (digits2_pos m))%Z.
Proof.
  destruct (digits_bounds m) as [Hlo Hhi].
  rewrite <- !pow2_Z in Hlo, Hhi by lia.
  rewrite <- Zle_Qle in Hlo. rewrite <- Zlt_Qlt in Hhi. lia.
Qed.

Lemma new_location_exact nb r :
  new_location nb r ≠ loc_Exact → r ≠ 0%Z.
Proof.
  intros Hl ->. apply Hl. unfold new_location, new_location_even, new_location_odd.
  now destruct (Z.even nb).
Qed.

(** The quotient [SFdiv_core_binary] computes has the digits the format
    asks for. *)
Lemma quotient_digits (mx my : positive) (s q r : Z) :
  (0 ≤ s)%Z → (Z.pos mx * 2 ^ s = Z.pos my * q + r)%Z → (0 ≤ r < Z.pos my)%Z →
  (Z.pos (digits2_pos mx) + s - Z.pos (digits2_pos my) ≤ Zdigits2 q)%Z.
Proof.
  intros Hs Hdiv Hr.
  pose proof (digits_bounds_Z mx) as [Hx1 Hx2].
  pose proof (digits_bounds_Z my) as [Hy1 Hy2].
  set (d1 := Z.pos (digits2_pos mx)) in *. set (d2 := Z.pos (digits2_pos my)) in *.
  assert (Hq : (0 ≤ q)%Z) by nia.
  assert (HP : (0 < 2 ^ s)%Z) by (apply Z.pow_pos_nonneg; lia).
  destruct (Z_le_gt_dec (d1 + s - d2) 0) as [Hsmall|Hbig].
  - destruct q; simpl; lia.
  - set (k := (d1 + s - d2 - 1)%Z).
    assert (Hpow : (2 ^ d2 * 2 ^ k = 2 ^ (d1 - 1) * 2 ^ s)%Z).
    { rewrite <- !Z.pow_add_r by (unfold d1, d2, k in *; lia). f_equal. unfold k. lia. }
    assert (HK : (0 < 2 ^ k)%Z) by (apply Z.pow_pos_nonneg; unfold k; lia).
    assert (Hqk : (2 ^ k ≤ q)%Z).
    { destruct (Z_le_gt_dec (2 ^ k) q) as [|Hlt]; [assumption|exfalso].
      assert (H1 : (Z.pos my * (q + 1) ≤ Z.pos my * 2 ^ k)%Z) by nia.
      assert (H2 : (Z.pos my * 2 ^ k < 2 ^ d2 * 2 ^ k)%Z) by nia.
      assert (H3 : (2 ^ (d1 - 1) * 2 ^ s ≤ Z.pos mx * 2 ^ s)%Z) by nia.
      lia. }
    destruct q as [|qp|qp]; try lia. cbn [Zdigits2].
    assert (Hge : (k + 1 ≤ Z.pos (digits2_pos qp))%Z).
    { apply digits_ge. rewrite <- pow2_Z by (unfold k; lia). now rewrite <- Zle_Qle. }
    unfold k in Hge. lia.
Qed.

Lemma SFdiv_at_most x (my : positive) (ey : Z) (M : positive) (E : Z) :
  nonneg_finite x = true →
  SF2Q x <= (inject_Z (Z.pos M) * pow2 E) * (inject_Z (Z.pos my) * pow2 ey) →
  canonical M E → (E ≤ emax - prec)%Z →
  at_most (SFdiv prec emax x (S754_finite false my ey))
    (inject_Z (Z.pos M) * pow2 E).
Proof.
  intros Hn Hle Hcan HE.
  set (B := inject_Z (Z.pos M) * pow2 E) in *.
  assert (HB : 0 < B).
  { unfold B. pose proof (pow2_pos E). pose proof (inject_Z_pos M). nra. }
  destruct x as [sx|sx| |[|] mx ex]; try discriminate Hn; cbn [SFdiv xorb].
  - apply at_most_zero. lra.
  - cbn [SF2Q] in Hle. unfold SFdiv_core_binary. cbn [Zdigits2].
    set (d1 := Z.pos (digits2_pos mx)). set (d2 := Z.pos (digits2_pos my)).
    set (e' := Z.min (fexp prec emax (d1 + ex - (d2 + ey))) (ex - ey)).
    set (s := (ex - ey - e')%Z).
    assert (Hs : (0 ≤ s)%Z) by (unfold s, e'; lia).
    set (m' := match s with
               | Z.pos _ => Z.shiftl (Z.pos mx) s
               | 0%Z => Z.pos mx
               | Z.neg _ => 0%Z
               end).
    assert (Hm' : m' = (Z.pos mx * 2 ^ s)%Z).
    { unfold m'. destruct s as [|p|p] eqn:Es; [simpl; lia| |lia].
      now rewrite Z.shiftl_mul_pow2 by lia. }
    pose proof (Z_div_mod m' (Z.pos my) ltac:(lia)) as Hdiv.
    destruct (Z.div_eucl m' (Z.pos my)) as [q r]. destruct Hdiv as [Hdiv Hr].
    assert (HP : (0 < 2 ^ s)%Z) by (apply Z.pow_pos_nonneg; lia).
    assert (Hq : (0 ≤ q)%Z) by nia.
    pose proof (pow2_pos e') as Hu. pose proof (pow2_pos ey) as Hv.
    pose proof (inject_Z_pos my) as Hmy.
    assert (Hval : (inject_Z (Z.pos my) * inject_Z q + inject_Z r) * pow2 e'
                   <= B * inject_Z (Z.pos my)).
    { rewrite <- inject_Z_mult, <- inject_Z_plus, <- Hdiv, Hm'.
      rewrite inject_Z_mult, pow2_Z by lia.
      assert (Hex : pow2 ex == pow2 s * pow2 e' * pow2 ey).
      { rewrite <- !pow2_add. now replace (s + e' + ey)%Z with ex by (unfold s; lia). }
      rewrite Hex in Hle.
      remember (inject_Z (Z.pos mx) * pow2 s * pow2 e') as a.
      assert (a * pow2 ey <= B * inject_Z (Z.pos my) * pow2 ey).
      { subst a. lra. }
      assert (Ha : a <= B * inject_Z (Z.pos my)) by nra.
      subst a. lra. }
    assert (Hr0 : 0 <= inject_Z r).
    { change 0 with (inject_Z 0). rewrite <- Zle_Qle. lia. }
    remember (inject_Z q * pow2 e') as a.
    assert (Hru : 0 <= inject_Z r * pow2 e') by nra.
    assert (Hexp : (inject_Z (Z.pos my) * inject_Z q + inject_Z r) * pow2 e'
                   == inject_Z (Z.pos my) * a + inject_Z r * pow2 e').
    { subst a. ring. }
    rewrite Hexp in Hval.
    apply (binary_round_aux_at_most _ _ _ B); try assumption.
    + rewrite <- Heqa. nra.
    + intros Hl. apply new_location_exact in Hl. rewrite <- Heqa.
      assert (1 <= inject_Z r).
      { change 1 with (inject_Z 1). rewrite <- Zle_Qle. lia. }
      assert (0 < inject_Z r * pow2 e') by nra. nra.
    + apply Z.le_trans with (fexp prec emax (d1 + ex - (d2 + ey))); [unfold e'; lia|].
      apply fexp_mono.
      pose proof (quotient_digits mx my s q r Hs ltac:(lia) Hr) as Hd.
      fold d1 d2 in Hd. unfold s in Hd. lia.
    + apply Qle_refl.
Qed.

(** ** From the comparisons of floats to bounds of values *)
Lemma SFleb_at_most x (M : positive) (E : Z) :
  SpecFloat.valid_binary prec emax x = true →
  SFleb (S754_zero false) x = true →
  SFleb x (S754_finite false M E) = true →
  digits2_pos M = 53%positive →
  at_most x (inject_Z (Z.pos M) * pow2 E).
Proof.
  intros Hv H0 Hle HM.
  pose proof (inject_Z_pos M) as HMp. pose proof (pow2_pos E) as HEp.
  destruct x as [s|s| |[|] m e]; try discriminate H0; try discriminate Hle.
  - apply at_most_zero. nra.
  - destruct s; discriminate.
  - split; [reflexivity|]. cbn [SF2Q].
    cbn [SpecFloat.valid_binary] in Hv. apply bounded_canonical in Hv as [Hc _].
    unfold SFleb, SFcompare in Hle.
    change (Pos.compare_cont Eq m M) with (m ?= M)%positive in Hle.
    destruct (Z.compare_spec e E) as [->|Hlt|Hgt]; [| |discriminate].
    + assert (Hm : (m ≤ M)%positive).
      { apply Pos.compare_le_iff. intros Hgt. rewrite Hgt in Hle. discriminate. }
      apply Qmult_le_compat_r; [|lra]. rewrite <- Zle_Qle. lia.
    + destruct (digits_bounds m) as [_ Hhi].
      pose proof (canonical_digits m e Hc) as Hd.
      pose proof (digits_normal M HM) as HMn.
      pose proof (pow2_le (Z.pos (digits2_pos m)) 53 Hd) as H53.
      pose proof (pow2_le (53 + e) (52 + E) ltac:(lia)) as Hpe.
      rewrite !pow2_add in Hpe. pose proof (pow2_pos e).
      pose proof (pow2_pos 52). pose proof (pow2_pos 53).
      pose proof (inject_Z_pos m).
      assert (inject_Z (Z.pos m) * pow2 e <= pow2 53 * pow2 e) by nra.
      assert (pow2 52 * pow2 E <= inject_Z (Z.pos M) * pow2 E) by nra.
      lra.
Qed.
End Operations.

Section UnitInterval.
Local Open Scope Q_scope.

Lemma half_even_hundred (num den : Z) :
  (0 < den)%Z → (0 ≤ num)%Z →
  (num * 2 ^ 52 ≤ 100 * (2 ^ 52 + 1) * den)%Z →
  (0 ≤ half_even num den ≤ 100)%Z.
Proof.
  intros Hden Hnum Hle. unfold half_even.
  pose proof (Z_div_mod_eq_full num den) as Hdiv.
  pose proof (Z.mod_pos_bound num den Hden) as Hr.
  set (q := (num / den)%Z) in *. set (r := (num mod den)%Z) in *.
  assert (H52 : (2 ^ 52 = 4503599627370496)%Z) by reflexivity.
  rewrite H52 in Hle.
  assert (Hq0 : (0 ≤ q)%Z) by nia.
  assert (Hq : (q ≤ 100)%Z) by nia.
  destruct (Z.compare_spec (2 * r) den) as [Heq|Hlt|Hgt].
  - destruct (Z.even q); [lia|]. assert (q ≠ 100%Z) by nia. lia.
  - lia.
  - assert (q ≠ 100%Z) by nia. lia.
Qed.

Lemma hundredths_table :
  forallb (λ n, PrimFloat.leb 0 (hundredths false n)
                && PrimFloat.leb (hundredths false n) 1)
    (map Z.of_nat (seq 0 101)) = true.
Proof. vm_compute. reflexivity. Qed.

Lemma hundredths_unit (n : Z) :
  (0 ≤ n ≤ 100)%Z →
  PrimFloat.leb 0 (hundredths false n) = true
  ∧ PrimFloat.leb (hundredths false n) 1 = true.
Proof.
  intros Hn. pose proof hundredths_table as Ht.
  rewrite forallb_forall in Ht. apply andb_true_iff, (Ht n).
  replace n with (Z.of_nat (Z.to_nat n)) by lia.
  apply in_map, in_seq. lia.
Qed.

(** The bound the sum of the three components stays under: [1 + 2^-52]. *)
Lemma py_round2_unit (x : float) :
  at_most (Prim2SF x) (inject_Z (Z.pos 4503599627370497) * pow2 (-52)) →
  PrimFloat.leb 0 (py_round2 x) = true ∧ PrimFloat.leb (py_round2 x) 1 = true.
Proof.
  intros [Hn Hle]. pose proof (Prim2SF_valid x) as Hv. unfold py_round2.
  destruct (Prim2SF x) as [s|s| |[|] m e] eqn:Hx; try discriminate Hn.
  - rewrite !FloatAxioms.leb_spec, Hx. now destruct s.
  - cbn [SpecFloat.valid_binary] in Hv. apply bounded_canonical in Hv as [Hc _].
    cbn [SF2Q] in Hle.
    destruct (Z.leb_spec 0 e) as [He|He].
    + exfalso. assert (Hd : digits2_pos m = 53%positive).
      { unfold canonical, fexp, emin, prec, emax in Hc. lia. }
      pose proof (digits_normal m Hd) as Hm. pose proof (pow2_le 0 e He) as Hp.
      change (pow2 0) with 1 in Hp.
      assert (Hb : inject_Z (Z.pos 4503599627370497) * pow2 (-52) < pow2 52).
      { apply Qlt_alt. reflexivity. }
      pose proof (pow2_pos 52). nra.
    + apply hundredths_unit, half_even_hundred; [apply Z.pow_pos_nonneg; lia|lia|].
      assert (Hz : (Z.pos m * 2 ^ 52 ≤ (2 ^ 52 + 1) * 2 ^ (- e))%Z).
      { rewrite Zle_Qle, !inject_Z_mult, !pow2_Z by lia.
        assert (H1 : pow2 e * pow2 (- e) == 1).
        { rewrite <- pow2_add. now replace (e + - e)%Z with 0%Z by lia. }
        assert (H2 : pow2 (-52) * pow2 52 == 1) by reflexivity.
        change (inject_Z (2 ^ 52 + 1)) with (inject_Z (Z.pos 4503599627370497)).
        pose proof (pow2_pos (- e)). pose proof (pow2_pos 52).
        pose proof (pow2_pos e). pose proof (pow2_pos (-52)).
        remember (inject_Z (Z.pos m)) as a.
        remember (inject_Z (Z.pos 4503599627370497)) as b.
        assert (Hm : a * pow2 e * (pow2 (- e) * pow2 52)
                     <= b * pow2 (-52) * (pow2 (- e) * pow2 52)).
        { apply Qmult_le_compat_r; [exact Hle|nra]. }
        assert (Hl : a * pow2 e * (pow2 (- e) * pow2 52) == a * pow2 52).
        { transitivity (a * pow2 52 * (pow2 e * pow2 (- e))); [ring|].
          rewrite H1. ring. }
        assert (Hr : b * pow2 (-52) * (pow2 (- e) * pow2 52) == b * pow2 (- e)).
        { transitivity (b * pow2 (- e) * (pow2 (-52) * pow2 52)); [ring|].
          rewrite H2. ring. }
        now rewrite Hl, Hr in Hm. }
      lia.
Qed.
End UnitInterval.

Section OverallScore.
Local Open Scope Q_scope.

Lemma canonical_normal (M : positive) (E : Z) :
  digits2_pos M = 53%positive → (-1074 ≤ E)%Z → canonical M E.
Proof. intros Hd HE. unfold canonical, fexp, emin, prec, emax. rewrite Hd. lia. Qed.

(** A score between 0 and 100 is a zero or a positive float of value at
    most 100. *)
Lemma in_range_at_most (x : float) :
  in_range (PFloat x) = true →
  at_most (Prim2SF x) (inject_Z (Z.pos 7036874417766400) * pow2 (-46)).
Proof.
  unfold in_range, f0, f100. intros Hr. apply andb_true_iff in Hr as [H0 H100].
  rewrite FloatAxioms.leb_spec in H0, H100.
  apply SFleb_at_most; [apply Prim2SF_valid|exact H0|exact H100|reflexivity].
Qed.

(** [x / 100 * w] is at most the weight [w], a normal float. *)
Lemma component_at_most (x w : float) (mw : positive) (ew : Z) :
  in_range (PFloat x) = true →
  Prim2SF w = S754_finite false mw ew →
  digits2_pos mw = 53%positive → (-1074 ≤ ew ≤ emax - prec)%Z →
  at_most (Prim2SF (x / 100 * w)) (inject_Z (Z.pos mw) * pow2 ew).
Proof.
  intros Hr Hw Hd Hew.
  rewrite FloatAxioms.mul_spec, FloatAxioms.div_spec, Hw.
  unfold SF64mul, SF64div.
  change (Prim2SF 100) with (S754_finite false 7036874417766400 (-46)).
  destruct (in_range_at_most x Hr) as [Hn Hle].
  assert (Hone : inject_Z (Z.pos 4503599627370496) * pow2 (-52) == 1) by reflexivity.
  apply (SFmul_at_most _ (inject_Z (Z.pos 4503599627370496) * pow2 (-52)));
    [|exact Hd| |apply canonical_normal; [exact Hd|lia]|lia].
  - apply SFdiv_at_most; [exact Hn| |now apply canonical_normal|unfold emax, prec; lia].
    rewrite Hone. lra.
  - rewrite Hone. lra.
Qed.

(** The sum of the three components is at most [1 + 2^-52]. *)
Lemma weighted_sum_at_most (supplier : Supplier) :
  scores_in_range supplier →
  at_most (Prim2SF (weighted_sum supplier))
    (inject_Z (Z.pos 4503599627370497) * pow2 (-52)).
Proof.
  intros (Hp & Hd & Hq). unfold weighted_sum.
  pose proof (component_at_most (price_score supplier) 0.4
                7205759403792794 (-54) Hp eq_refl eq_refl ltac:(unfold emax, prec; lia))
    as Hpc.
  pose proof (component_at_most (delivery_reliability_score supplier) 0.3
                5404319552844595 (-54) Hd eq_refl eq_refl ltac:(unfold emax, prec; lia))
    as Hdc.
  pose proof (component_at_most (quality_rating_score supplier) 0.3
                5404319552844595 (-54) Hq eq_refl eq_refl ltac:(unfold emax, prec; lia))
    as Hqc.
  rewrite FloatAxioms.add_spec. unfold SF64add.
  eapply SFadd_at_most; [|exact Hqc| |now apply canonical_normal|unfold emax, prec; lia].
  - rewrite FloatAxioms.add_spec. unfold SF64add.
    apply (SFadd_at_most _ _ _ _ 6305039478318695 (-53) Hpc Hdc);
      [|now apply canonical_normal|unfold emax, prec; lia].
    apply Qle_bool_iff. vm_compute. reflexivity.
  - apply Qle_bool_iff. vm_compute. reflexivity.
Qed.
End OverallScore.

(** The score of a validated supplier is a number, and so the scores of a
    validated batch compare. *)
Lemma validated_not_nan (s : Supplier) :
  validated s → is_nan (overall_score s) = false.
Proof.
  intros (Hp & Hd & Hq & Ho). rewrite Ho.
  change (calculate_overall_score s) with (py_round2 (weighted_sum s)).
  destruct (py_round2_unit _ (weighted_sum_at_most s (conj Hp (conj Hd Hq))))
    as [H0 _].
  now apply leb_not_nan in H0.
Qed.

Lemma validated_scores_comparable (l : list Supplier) :
  Forall validated l → scores_comparable l.
Proof.
  unfold scores_comparable. intros Hl.
  eapply Forall_impl; [exact Hl|]. exact validated_not_nan.
Qed.

(** ** The program on the input of its own [main] *)

(** The fifteen rows pass the validation, and the ranking puts s13 first and
    keeps s6 before s10, and s1, s2, s9 in their order, at equal scores. *)
Example main_ranking :
  let selector := snd (parse_input_data (H := Example.builtins)
                         Example.csv_data "csv" init) in
  fst (parse_input_data (H := Example.builtins) Example.csv_data "csv" init) = Ok ()
  ∧ map supplier_id (ranked_suppliers (suppliers selector))
    = map PStr ["s13"; "s6"; "s10"; "s3"; "s8"; "s11"; "s15"; "s1"; "s2";
                "s9"; "s5"; "s12"; "s4"; "s14"; "s7"]
  ∧ map overall_score (ranked_suppliers (suppliers selector))
    = [0.91; 0.9; 0.9; 0.89; 0.88; 0.86; 0.82; 0.81; 0.81; 0.81; 0.8; 0.78;
       0.76; 0.75; 0.74]%float
  ∧ map supplier_id (top_suppliers (suppliers selector)) = [PStr "s13"].
Proof. vm_compute. repeat split; reflexivity. Qed.

(** [round(x, 2)] on some floats: a tie goes to the even neighbour, and
    2.675, a float below the tie it is written as, goes down. *)
Example py_round2_values :
  py_round2 0.125 = 0.12%float ∧ py_round2 0.375 = 0.38%float
  ∧ py_round2 2.675 = 2.67%float ∧ py_round2 (-0.001) = (-0)%float
  ∧ py_round2 1 = 1%float.
Proof. vm_compute. repeat split; reflexivity. Qed.

(** * The claims *)



(** C2. For a batch of validated suppliers, the final ranking of the
    report lists, under its heading, the suppliers of the batch whose
    [overall_score] no supplier of the batch exceeds, all of them and no
    other, in the order of the batch.  When the batch is not empty, the
    score of the heading is the maximum of the scores of the batch, and a
    supplier is listed if and only if it is of the batch and its score
    equals that maximum. *)
Theorem final_ranking_lists_top_vendors `{PyBuiltins} (self : VendorSelectorAI) :
  Forall validated (suppliers self) →
  final_ranking (suppliers self)
  = [""; "# Final Ranking";
     "Top supplier(s) with overall score of "
       +:+ py_str (top_score_of (ranked_suppliers (suppliers self))) +:+ ":"]
    ++ map (λ s, "- Supplier " +:+ py_str (supplier_id s))
         (List.filter (is_max_score (suppliers self)) (suppliers self))
  ∧ (∀ s, In s (top_suppliers (suppliers self))
          ↔ In s (suppliers self)
            ∧ ∀ t, In t (suppliers self) →
                   PrimFloat.leb (overall_score t) (overall_score s) = true)
  ∧ (suppliers self ≠ [] →
     ∃ m, top_score_of (ranked_suppliers (suppliers self)) = PFloat m
          ∧ (∃ s, In s (suppliers self) ∧ overall_score s = m)
          ∧ (∀ t, In t (suppliers self) →
                  PrimFloat.leb (overall_score t) m = true)
          ∧ ∀ s, In s (top_suppliers (suppliers self))
                 ↔ In s (suppliers self)
                   ∧ PrimFloat.eqb (overall_score s) m = true)
  ∧ ∃ before after,
      fst (generate_final_report self)
      = join nl (before ++ final_ranking (suppliers self) ++ after).
Proof.
  intros Hl. apply validated_scores_comparable in Hl. split; [|split; [|split]].
  - unfold final_ranking. now rewrite top_suppliers_max.
  - intros s. rewrite top_suppliers_max by assumption.
    rewrite List.filter_In. unfold is_max_score. now rewrite forallb_forall.
  - intros Hne. destruct (top_score_is_max _ Hl Hne) as (m & Ht & Hs & Hm & Htop).
    exists m. split; [exact Ht|]. split; [exact Hs|]. split; [exact Hm|].
    intros s. rewrite Htop. unfold with_score. apply List.filter_In.
  - unfold generate_final_report.
    destruct (generate_validation_report self) as [validation self'] eqn:E.
    cbn [fst].
    eexists (_ :: _ :: _ :: _ :: _ :: _ :: _ :: _ :: _ :: _ :: analyses _ _ _), _.
    reflexivity.
Qed.

Lemma final_ranking_lists_top_vendors_witness :
  let self := {| suppliers := Example.tied_batch;
                 validation_report := validation_report init |} in
  Forall validated (suppliers self)
  ∧ top_suppliers (suppliers self)
    = [Example.supplier "a" 85 85 85; Example.supplier "c" 85 85 85]
  ∧ ∀ s, In s (top_suppliers (suppliers self))
         ↔ In s (suppliers self)
           ∧ ∀ t, In t (suppliers self) →
                  PrimFloat.leb (overall_score t) (overall_score s) = true.
Proof.
  intros self.
  assert (Hl : Forall validated (suppliers self)) by (repeat constructor).
  split; [exact Hl|]. split; [reflexivity|].
  exact (proj1 (proj2 (final_ranking_lists_top_vendors
                         (H := Example.builtins) self Hl))).
Defined.

(** C10. With no supplier, [generate_final_report] still gives a report:
    its final ranking states a top score of 0 and lists no supplier. *)
Theorem empty_collection_report `{PyBuiltins} (vr : ValidationReport) :
  let self := {| suppliers := []; validation_report := vr |} in
  top_score_of (ranked_suppliers (suppliers self)) = PInt 0
  ∧ top_suppliers (suppliers self) = []
  ∧ final_ranking (suppliers self)
    = [""; "# Final Ranking"; "Top supplier(s) with overall score of 0:"]
  ∧ fst (generate_final_report self)
    = join nl
        [join nl
           ["# Data Validation Report";
            "## 1. Data Structure Check:";
            "- Number of suppliers: 0";
            "- Number of fields per record: 4";
            "";
            "## 2. Required Fields Check:";
            "- supplier_id: Present";
            "- price_score: Present";
            "- delivery_reliability_score: Present";
            "- quality_rating_score: Present";
            "";
            "## 3. Data Type Validation:";
            "- Price Score (positive number): Valid";
            "- Delivery Reliability Score (positive number): Valid";
            "- Quality Rating Score (positive number): Valid";
            "";
            "## Validation Summary:";
            "Data validation is successful! Proceeding with analysis..."];
         "";
         "# Formulas Used:";
         "1. Overall Supplier Score Formula:";
         "$$\text{Overall Score} = \left(\frac{\text{price_score}}{100} \times 0.4 \right) + \left(\frac{\text{delivery_reliability_score}}{100} \times 0.3 \right) + \left(\frac{\text{quality_rating_score}}{100} \times 0.3 \right)$$";
         "";
         "# Supplier Evaluation Summary";
         "Total Suppliers Evaluated: 0";
         "";
         "# Detailed Analysis for Each Supplier";
         "";
         "# Final Ranking";
         "Top supplier(s) with overall score of 0:";
         "";
         "# Feedback Request";
         "Would you like detailed calculations for any specific supplier? Rate this analysis (1-5)."].
Proof.
  repeat split; reflexivity.
Qed.

(** C5. A record that lacks one or more of the four required keys fails
    with the missing-field error, the state unchanged, and the message
    names every key the record lacks. *)
Theorem missing_fields_all_named `{PyBuiltins}
    (data : gmap string pyval) (self : VendorSelectorAI) :
  (∃ field, In field required_fields_list ∧ data !! field = None) →
  ∃ msg,
    _process_supplier_data data self = (Raise (ValueError msg), self)
    ∧ ValueError msg = MissingFieldError (missing_fields_of data)
    ∧ ∀ field, In field required_fields_list → data !! field = None →
               In field (missing_fields_of data) ∧ mentions msg field.
Proof.
  apply missing_fields_all_named_aux.
Qed.

Lemma missing_fields_all_named_witness :
  (∃ field, In field required_fields_list ∧ Example.partial_row !! field = None)
  ∧ ∃ msg,
      _process_supplier_data (H := Example.builtins) Example.partial_row init
      = (Raise (ValueError msg), init)
      ∧ ValueError msg = MissingFieldError (missing_fields_of Example.partial_row)
      ∧ ∀ field, In field required_fields_list →
                 Example.partial_row !! field = None →
                 In field (missing_fields_of Example.partial_row)
                 ∧ mentions msg field.
Proof.
  assert (Hex : ∃ field, In field required_fields_list
                         ∧ Example.partial_row !! field = None).
  { exists "quality_rating_score". split; [simpl; tauto|reflexivity]. }
  split; [exact Hex|].
  exact (missing_fields_all_named (H := Example.builtins)
           Example.partial_row init Hex).
Defined.



(** C9. Whatever the record, [_process_supplier_data] either appends one
    supplier, built from a record that satisfies the validation rules, with
    its three scores in range and its overall score computed, or raises and
    leaves the collection as it was.  So every supplier of the collection
    is a validated one at every point of a run of [parse_input_data]. *)
Theorem suppliers_always_validated `{PyBuiltins} :
  (∀ data self,
     (valid_record data = true
      ∧ ∃ s, _process_supplier_data data self
             = (Ok (), {| suppliers := suppliers self ++ [s];
                          validation_report := validation_report self |})
           ∧ built_from data s ∧ validated s)
     ∨ (valid_record data = false
        ∧ ∃ e, _process_supplier_data data self = (Raise e, self)))
  ∧ (∀ rows self,
       Forall validated (suppliers self) →
       Forall validated (suppliers (snd (process_rows rows self))))
  ∧ (∀ data format_type,
       Forall validated (suppliers (snd (parse_input_data data format_type init)))).
Proof.
  split; [exact _process_supplier_data_cases|].
  split; [exact process_rows_validated|].
  intros data format_type. apply parse_input_data_validated. constructor.
Qed.

Lemma suppliers_always_validated_witness :
  Forall validated
    (suppliers (snd (parse_input_data (H := Example.builtins)
                       Example.csv_out_of_range "csv" init)))
  ∧ length (suppliers (snd (parse_input_data (H := Example.builtins)
                              Example.csv_out_of_range "csv" init))) = 1%nat.
Proof.
  split; [|reflexivity].
  apply (suppliers_always_validated (H := Example.builtins)).
Defined.

(** C4. When the input decodes to rows of which one breaks the validation
    rules, [parse_input_data] raises what [_process_supplier_data] raises
    on the first such row, the collection then holds the rows before it and
    no other, and [main] prints no report: it shows that error or dies of
    it.  If that row lacks the key [quality_rating_score], the error is the
    missing-field error and its message names [quality_rating_score]. *)
Theorem first_invalid_record_aborts `{PyBuiltins}
    (data format_type : string) (good rest : list (gmap string pyval))
    (bad : gmap string pyval) :
  isascii data = true →
  format_type = "csv" ∨ format_type = "json" →
  decode_rows data format_type = Ok (good ++ bad :: rest) →
  forallb valid_record good = true →
  valid_record bad = false →
  ∃ e self',
    parse_input_data data format_type init = (Raise e, self')
    ∧ process_rows good init = (Ok (), self')
    ∧ length (suppliers self') = length good
    ∧ _process_supplier_data bad self' = (Raise e, self')
    ∧ (main data format_type = ErrorMessage e ∨ main data format_type = Uncaught e)
    ∧ (bad !! "quality_rating_score" = None →
       ∃ msg, e = ValueError msg
              ∧ e = MissingFieldError (missing_fields_of bad)
              ∧ mentions msg "quality_rating_score").
Proof.
  intros Ha Hf Hd Hgood Hbad.
  pose proof (parse_input_data_rows data format_type _ init Ha Hf Hd) as Hparse.
  destruct (process_rows_valid good init Hgood) as [Hok Hlen].
  destruct (process_rows good init) as [r self'] eqn:Hrows.
  simpl in Hok, Hlen. subst r.
  destruct (_process_supplier_data_cases bad self')
    as [[Hv _]|[_ (e & He)]]; [congruence|].
  assert (Hp : parse_input_data data format_type init = (Raise e, self')).
  { rewrite Hparse, process_rows_app, Hrows. simpl. now rewrite He. }
  exists e, self'. split; [exact Hp|]. split; [reflexivity|].
  split; [exact Hlen|]. split; [exact He|]. split.
  - unfold main. rewrite Hp. destruct (is_ValueError e); auto.
  - intros Hq.
    destruct (missing_fields_all_named_aux bad self') as (msg & Hm & Hmsg & Hall).
    { exists "quality_rating_score". split; [simpl; tauto|exact Hq]. }
    rewrite He in Hm. injection Hm as ->.
    exists msg. split; [reflexivity|]. split; [exact Hmsg|].
    apply Hall; [simpl; tauto|exact Hq].
Qed.

Lemma first_invalid_record_aborts_witness :
  let good := [Example.row "s1" "78" "85" "80"] in
  let bad := Example.row "s2" "182" "80" "79" in
  let rest := [Example.row "s3" "91" "88" "86"] in
  let short : gmap string pyval :=
    {[ "supplier_id" := PStr "s1"; "price_score" := PStr "78";
       "delivery_reliability_score" := PStr "85" ]} in
  (isascii Example.csv_out_of_range = true
   ∧ decode_rows (H := Example.builtins) Example.csv_out_of_range "csv"
     = Ok (good ++ bad :: rest)
   ∧ forallb (valid_record (H := Example.builtins)) good = true
   ∧ valid_record (H := Example.builtins) bad = false)
  ∧ (∃ e self',
       parse_input_data (H := Example.builtins) Example.csv_out_of_range "csv" init
       = (Raise e, self')
       ∧ process_rows (H := Example.builtins) good init = (Ok (), self')
       ∧ length (suppliers self') = length good
       ∧ _process_supplier_data (H := Example.builtins) bad self' = (Raise e, self')
       ∧ (main (H := Example.builtins) Example.csv_out_of_range "csv" = ErrorMessage e
          ∨ main (H := Example.builtins) Example.csv_out_of_range "csv" = Uncaught e)
       ∧ (bad !! "quality_rating_score" = None →
          ∃ msg, e = ValueError msg
                 ∧ e = MissingFieldError (missing_fields_of bad)
                 ∧ mentions msg "quality_rating_score"))
  ∧ main (H := Example.builtins) Example.csv_out_of_range "csv"
    = ErrorMessage (InvalidRangeError "s2" "price_score")
  ∧ short !! "quality_rating_score" = None
  ∧ (∃ e self',
       parse_input_data (H := Example.builtins) Example.csv_no_quality "csv" init
       = (Raise e, self')
       ∧ process_rows (H := Example.builtins) [] init = (Ok (), self')
       ∧ length (suppliers self') = 0%nat
       ∧ _process_supplier_data (H := Example.builtins) short self' = (Raise e, self')
       ∧ (main (H := Example.builtins) Example.csv_no_quality "csv" = ErrorMessage e
          ∨ main (H := Example.builtins) Example.csv_no_quality "csv" = Uncaught e)
       ∧ (short !! "quality_rating_score" = None →
          ∃ msg, e = ValueError msg
                 ∧ e = MissingFieldError (missing_fields_of short)
                 ∧ mentions msg "quality_rating_score"))
  ∧ main (H := Example.builtins) Example.csv_no_quality "csv"
    = ErrorMessage (MissingFieldError ["quality_rating_score"]).
Proof.
  intros good bad rest short.
  assert (Ha : isascii Example.csv_out_of_range = true) by reflexivity.
  assert (Hd : decode_rows (H := Example.builtins) Example.csv_out_of_range "csv"
               = Ok (good ++ bad :: rest)) by reflexivity.
  assert (Hg : forallb (valid_record (H := Example.builtins)) good = true)
    by reflexivity.
  assert (Hb : valid_record (H := Example.builtins) bad = false) by reflexivity.
  split; [auto|]. split.
  { exact (first_invalid_record_aborts (H := Example.builtins)
             Example.csv_out_of_range "csv" good rest bad
             Ha (or_introl eq_refl) Hd Hg Hb). }
  split; [reflexivity|]. split; [reflexivity|]. split; [|reflexivity].
  apply (first_invalid_record_aborts (H := Example.builtins)
           Example.csv_no_quality "csv" []
           [{[ "supplier_id" := PStr "s2"; "price_score" := PStr "82";
               "delivery_reliability_score" := PStr "80" ]}] short);
    first [reflexivity | now left].
Defined.

(** C7.  At a record whose price score is the text [abc], the code raises
    the error of [float()] itself, which names neither the supplier nor the
    field; and no record makes [_process_supplier_data] raise the type
    error of [validate_score], which would name them. *)
Theorem non_numeric_score_error :
  _process_supplier_data (H := Example.builtins)
    (Example.row "s1" "abc" "85" "80") init
  = (Raise (FloatValueError "abc"), init)
  ∧ main (H := Example.builtins) "supplier_id,price_score,delivery_reliability_score,quality_rating_score
s1,abc,85,80" "csv" = ErrorMessage (FloatValueError "abc")
  ∧ ∀ (H : PyBuiltins) data self sid field,
      fst (_process_supplier_data data self) ≠ Raise (InvalidTypeError sid field).
Proof.
  split; [reflexivity|]. split; [reflexivity|].
  intros H. apply InvalidTypeError_unreachable.
Qed.

(** C8, as stated, fails.  The scores 31.25, 0, 0 sum to 0.125 exactly, the
    half between 0.12 and 0.13, and the overall score is 0.12, not the 0.13
    farther from zero. *)
Lemma half_away_from_zero_fails :
  scores_in_range (Example.supplier "x" 31.25 0 0)
  ∧ on_half (weighted_sum (Example.supplier "x" 31.25 0 0)) false 12
  ∧ calculate_overall_score (Example.supplier "x" 31.25 0 0) = hundredths false 12
  ∧ calculate_overall_score (Example.supplier "x" 31.25 0 0) ≠ hundredths false 13.
Proof.
  split; [repeat split|]. split; [|split; [reflexivity|]].
  - exists 4503599627370496%positive, (-55). repeat split; lia.
  - intros Heq. apply (f_equal Prim2SF) in Heq. vm_compute in Heq. discriminate.
Qed.

(** C8, amended.  [round(x, 2)] rounds half to even: when the sum that
    [calculate_overall_score] rounds is exactly a half, [k + 1/2]
    hundredths in absolute value, the overall score is [k] hundredths if
    [k] is even and [k + 1] hundredths if [k] is odd, with the sign of the
    sum. *)
Theorem rounding_is_half_even (supplier : Supplier) (s : bool) (k : Z) :
  on_half (weighted_sum supplier) s k →
  calculate_overall_score supplier
  = hundredths s (if Z.even k then k else k + 1).
Proof.
  intros (m & e & Hx & He & Hk & Heq).
  change (calculate_overall_score supplier) with (py_round2 (weighted_sum supplier)).
  unfold py_round2. rewrite Hx.
  destruct (Z.leb_spec 0 e) as [Hle|_]; [lia|]. f_equal.
  unfold half_even.
  assert (Hden : 0 < 2 ^ (- e)) by (apply Z.pow_pos_nonneg; lia).
  set (den := 2 ^ (- e)) in *. set (num := Z.pos m * 100) in *.
  assert (Hq : num / den = k).
  { symmetry. apply (Z.div_unique num den k (num - den * k)); lia. }
  assert (Hr : num mod den = num - den * k).
  { symmetry. apply (Z.mod_unique num den k (num - den * k)); lia. }
  rewrite Hq, Hr.
  replace (2 * (num - den * k) ?= den) with Eq; [reflexivity|].
  symmetry. apply Z.compare_eq_iff. lia.
Qed.

Lemma rounding_is_half_even_witness :
  on_half (weighted_sum (Example.supplier "x" 31.25 0 0)) false 12
  ∧ calculate_overall_score (Example.supplier "x" 31.25 0 0) = hundredths false 12.
Proof.
  assert (Hh : on_half (weighted_sum (Example.supplier "x" 31.25 0 0)) false 12).
  { exists 4503599627370496%positive, (-55). repeat split; lia. }
  split; [exact Hh|].
  exact (rounding_is_half_even (Example.supplier "x" 31.25 0 0) false 12 Hh).
Defined.

(** C1, as stated, fails.  At the scores 0, 2, 3 the code returns 0.01,
    while the simplified sum [0.004p + 0.003d + 0.003q] rounds to 0.02, in
    binary64 arithmetic and in exact arithmetic alike: the exact sum is
    0.015, a half whose two roundings, to even and away from zero, are both
    0.02. *)
Lemma simplified_formula_differs :
  scores_in_range (Example.supplier "x" 0 2 3)
  ∧ calculate_overall_score (Example.supplier "x" 0 2 3) = hundredths false 1
  ∧ py_round2 (simplified_sum (Example.supplier "x" 0 2 3)) = hundredths false 2
  ∧ exact_hundredths 0 2 3 = 2
  ∧ calculate_overall_score (Example.supplier "x" 0 2 3)
    ≠ py_round2 (simplified_sum (Example.supplier "x" 0 2 3)).
Proof.
  split; [repeat split|]. do 3 (split; [reflexivity|]).
  intros Heq. apply (f_equal Prim2SF) in Heq. vm_compute in Heq. discriminate.
Qed.

(** C1, amended.  For three scores between 0 and 100,
    [calculate_overall_score] returns [round(s, 2)] of the sum [s] of
    [(p/100)*0.4], [(d/100)*0.3] and [(q/100)*0.3] as binary64 arithmetic
    computes it, and the result lies between 0 and 1. *)
Theorem overall_score_in_unit_interval (supplier : Supplier) :
  scores_in_range supplier →
  calculate_overall_score supplier = py_round2 (weighted_sum supplier)
  ∧ PrimFloat.leb 0 (calculate_overall_score supplier) = true
  ∧ PrimFloat.leb (calculate_overall_score supplier) 1 = true.
Proof.
  intros Hr. split; [reflexivity|].
  change (calculate_overall_score supplier) with (py_round2 (weighted_sum supplier)).
  apply py_round2_unit, weighted_sum_at_most. exact Hr.
Qed.

Lemma overall_score_in_unit_interval_witness :
  scores_in_range (Example.supplier "x" 100 100 100)
  ∧ calculate_overall_score (Example.supplier "x" 100 100 100)
    = py_round2 (weighted_sum (Example.supplier "x" 100 100 100))
  ∧ PrimFloat.leb 0 (calculate_overall_score (Example.supplier "x" 100 100 100)) = true
  ∧ PrimFloat.leb (calculate_overall_score (Example.supplier "x" 100 100 100)) 1 = true.
Proof.
  assert (Hr : scores_in_range (Example.supplier "x" 100 100 100))
    by (repeat split).
  split; [exact Hr|].
  exact (overall_score_in_unit_interval (Example.supplier "x" 100 100 100) Hr).
Defined.
